(** * Directory tree generator: a shallow embedding of
      [others/directory-tree/directory_tree_generator.py]

    The development follows the Python module top to bottom: the option
    records, the ignore filter, the size formatter, the three recursive
    generators (text, Markdown, JSON), the HTML page,
    [generate_to_string], [generate_to_file] and [main].  Python [int] is
    [Z], a [float] is the rational it equals, [str] is [string] (a
    sequence of bytes, so names are exact for ASCII and byte-wise
    otherwise), a [set] of strings is a [gset string], a [dict] is an
    association list in insertion order and the mutable [self.stats] is
    threaded explicitly through every generator. *)

From Stdlib Require Import ZArith QArith Qround Ascii String List Bool Lia Lqa.
From Stdlib Require Import Sorting.Sorted Sorting.Permutation.
From Stdlib Require Import Numbers.DecimalString.
From stdpp Require Import base decidable gmap strings list.

Import ListNotations.
Set Warnings "-register-all".
Local Open Scope list_scope.
Local Open Scope Z_scope.

(** ** Python string primitives *)

Module PyStr.

(** [s.startswith(p)] *)
Definition startswith (s p : string) : bool := String.prefix p s.

(** [s.endswith(p)]: the last [len p] characters of [s] are [p]. *)
Definition endswith (s p : string) : bool :=
  (String.length p <=? String.length s)%nat &&
  String.eqb (String.substring (String.length s - String.length p)
                               (String.length p) s) p.

(** [c in s] for a one-character [c] *)
Fixpoint contains_char (c : ascii) (s : string) : bool :=
  match s with
  | EmptyString => false
  | String a s' => Ascii.eqb a c || contains_char c s'
  end.

(** [s[1:]] *)
Definition drop_first (s : string) : string :=
  match s with
  | EmptyString => EmptyString
  | String _ s' => s'
  end.

(** [s[:-1]] *)
Fixpoint drop_last (s : string) : string :=
  match s with
  | EmptyString => EmptyString
  | String a EmptyString => EmptyString
  | String a s' => String a (drop_last s')
  end.

(** [s.isascii()]: every character is below 128. *)
Fixpoint isascii (s : string) : bool :=
  match s with
  | EmptyString => true
  | String a s' => (nat_of_ascii a <? 128)%nat && isascii s'
  end.

(** [c.lower()] for an ASCII character: only the capitals move. *)
Definition lower_ascii (c : ascii) : ascii :=
  let n := nat_of_ascii c in
  if ((65 <=? n) && (n <=? 90))%nat then ascii_of_nat (n + 32) else c.

(** [s.lower()] for a string with [s.isascii()].  Python lowers every
    cased code point; in an ASCII string these are the capitals [A] to
    [Z].  On other strings this function leaves the characters above 127
    alone, which [str.lower] does not: what is proved of the order of
    names is therefore stated for ASCII names. *)
Fixpoint lower (s : string) : string :=
  match s with
  | EmptyString => EmptyString
  | String a s' => String (lower_ascii a) (lower s')
  end.

(** ['\n'.join(lines)] and friends *)
Definition join (sep : string) (l : list string) : string :=
  String.concat sep l.

End PyStr.

(** ** The option records *)

Inductive OutputFormat := TEXT | MARKDOWN | HTML | JSON.

Record TreeStats := mkStats {
  total_dirs : nat;
  total_files : nat;
  skipped : nat;
  errors : nat
}.

(** [TreeStats()] *)
Definition TreeStats_new : TreeStats := mkStats 0 0 0 0.

Record TreeConfig := mkConfig {
  max_depth : option Z;
  show_hidden : bool;
  dirs_only : bool;
  show_size : bool;
  show_permissions : bool;
  cfg_ignore_patterns : gset string
}.

(** [TreeConfig()] with every default, [ignore_patterns] being replaced by
    the empty set in [__post_init__]. *)
Definition TreeConfig_new : TreeConfig :=
  mkConfig None false false false false ∅.

(** ** The generator object *)

Definition DEFAULT_IGNORE : gset string :=
  list_to_set
    [ "__pycache__"; ".git"; ".svn"; ".hg"; "node_modules";
      ".idea"; ".vscode"; ".DS_Store"; "venv"; "env";
      ".pytest_cache"; ".mypy_cache"; "__MACOSX" ].

(** The fields of [DirectoryTreeGenerator] that are read but never written
    after [__init__]; [self.stats] is the threaded state. *)
Record Generator := mkGenerator {
  config : TreeConfig;
  output_format : OutputFormat;
  ignore_patterns : gset string
}.

(** [DirectoryTreeGenerator.__init__] *)
Definition Generator_init (cfg : TreeConfig) (fmt : OutputFormat) : Generator :=
  mkGenerator cfg fmt (DEFAULT_IGNORE ∪ cfg_ignore_patterns cfg).

(** The body of the [for pattern in self.ignore_patterns] loop of
    [should_ignore]: does this one pattern make the loop return [True]? *)
Definition wildcard_hit (entry pattern : string) : bool :=
  if PyStr.contains_char "*"%char pattern then
    if PyStr.startswith pattern "*" then
      PyStr.endswith entry (PyStr.drop_first pattern)
    else if PyStr.endswith pattern "*" then
      PyStr.startswith entry (PyStr.drop_last pattern)
    else false
  else false.

Definition should_ignore (self : Generator) (entry : string) : bool :=
  if negb (show_hidden (config self)) && PyStr.startswith entry "." then true
  else if bool_decide (entry ∈ ignore_patterns self) then true
  else existsb (wildcard_hit entry) (elements (ignore_patterns self)).

(** ** [_format_size]

    [size] starts as an [int] and becomes a [float], a double, where it
    is first divided by [1024.0] or, when the first test already
    succeeds, where [.1f] formats it.  The comparison of an [int] with
    [1024.0] is exact, and so is that of the double nearest to it,
    because every int up to 2^53 is a double; dividing a double by 1024
    only moves its exponent.  So every running value is the rational
    [float(size) / 1024^k], and the model keeps that rational.  The
    format [.1f] prints the nearest multiple of one tenth, an exact tie
    going to the even tenth.

    An [int] of magnitude 2^1024 - 2^970 or more has no double and
    [float] raises [OverflowError] for it; [fits_float] is the range in
    which this does not happen, and what is proved of [_format_size] is
    stated within it.  The [st_size] of a file is a 64-bit offset. *)

Definition Qltb (x y : Q) : bool := negb (Qle_bool y x).

(** Nearest integer to [q], ties to even. *)
Definition round_half_even (q : Q) : Z :=
  let n := Qnum q in
  let d := Z.pos (Qden q) in
  let f := n / d in
  let r := n mod d in
  match (2 * r) ?= d with
  | Lt => f
  | Gt => f + 1
  | Eq => if Z.even f then f else f + 1
  end.

(** [float(n)] for an [int] [n], as the integer it equals: the nearest
    double, a tie going to the even mantissa.  An int of magnitude below
    2^53 is a double; a larger one keeps its 53 leading bits, the
    [Z.log2 |n| - 52] bits below them being rounded away. *)
Definition float_of_int (n : Z) : Z :=
  let a := Z.abs n in
  if a <? 2 ^ 53 then n
  else
    let e := Z.log2 a - 52 in
    Z.sgn n * (round_half_even (a # Z.to_pos (2 ^ e)) * 2 ^ e).

(** The ints that [float] converts without [OverflowError]. *)
Definition fits_float (n : Z) : bool := Z.abs n <? 2 ^ 1024 - 2 ^ 970.

Definition digits_of_Z (z : Z) : string :=
  NilZero.string_of_uint (N.to_uint (Z.to_N z)).

(** [f"{q:.1f}"] *)
Definition format_1f (q : Q) : string :=
  let t := round_half_even (q * 10) in
  let a := Z.abs t in
  (if Qltb q 0 then "-" else "") +:+
  digits_of_Z (a / 10) +:+ "." +:+ digits_of_Z (a mod 10).

(** The [for unit in [...]] loop: the label and the running value at the
    moment the function returns. *)
Fixpoint format_size_loop (units : list string) (size : Q) : string * Q :=
  match units with
  | [] => ("PB", size)
  | unit :: rest =>
      if Qltb size 1024 then (unit, size)
      else format_size_loop rest (size / 1024)
  end.

Definition format_size_units : list string := ["B"; "KB"; "MB"; "GB"; "TB"].

Definition _format_size (size : Z) : string :=
  let '(unit, v) :=
    format_size_loop format_size_units (inject_Z (float_of_int size)) in
  "(" +:+ format_1f v +:+ unit +:+ ")".

(** ** Tree drawing characters

    Byte for byte as the class attributes have them in the source file. *)

Definition PIPE : string := "â”‚".
Definition TEE : string := "â”œâ”€â”€".
Definition ELBOW : string := "â””â”€â”€".
Definition SPACE : string := "    ".
Definition PIPE_SPACE : string := "â”‚   ".

(** ** Exceptions and the file system

    A [Path] is what the generators can observe of a [pathlib.Path]: its
    [name], whether [is_dir()] holds, what [stat()] gives (or that it
    raises), and for a directory what [iterdir()] yields, in the order
    the operating system lists it, or the exception it raises. *)

Inductive PyExc :=
| PermissionError (msg : string)
| OSError (msg : string)
| NotADirectoryError (msg : string)
| FileNotFoundError (msg : string)
| TypeError (msg : string)
| UnicodeEncodeError (msg : string).

(** [str(e)] *)
Definition exc_str (e : PyExc) : string :=
  match e with
  | PermissionError m | OSError m | NotADirectoryError m
  | FileNotFoundError m | TypeError m | UnicodeEncodeError m => m
  end.

Record StatResult := mkStat { st_size : N; st_mode : N }.

Inductive Path :=
| File (name : string) (regular : bool) (st : option StatResult)
| Dir (name : string) (st : option StatResult) (listing : PyExc + list Path).

Definition name (p : Path) : string :=
  match p with File n _ _ | Dir n _ _ => n end.

Definition is_dir (p : Path) : bool :=
  match p with File _ _ _ => false | Dir _ _ _ => true end.

Definition is_file (p : Path) : bool :=
  match p with File _ r _ => r | Dir _ _ _ => false end.

Definition stat (p : Path) : option StatResult :=
  match p with File _ _ s | Dir _ s _ => s end.

(** [sorted(directory.iterdir(), ...)] starts by draining [iterdir()].
    For a path that is no directory the operating system's message names
    the path as it was passed to the generator; a [Path] keeps the last
    component only, and the message here names that. *)
Definition iterdir (p : Path) : PyExc + list Path :=
  match p with
  | File n _ _ => inl (NotADirectoryError ("[Errno 20] Not a directory: '" +:+ n +:+ "'"))
  | Dir _ _ l => l
  end.

(** ** [sorted(..., key=lambda p: (not p.is_dir(), p.name.lower()))]

    Python compares the key tuples lexicographically, [False < True] on
    the first component and code point order on the second, and
    [sorted] is stable.  A stable sort is determined by the order alone;
    it is written here as an insertion sort that puts an element in front
    of the first later element whose key is not smaller. *)

Definition key_le (k1 k2 : bool * string) : bool :=
  match fst k1, fst k2 with
  | false, true => true
  | true, false => false
  | _, _ => String.leb (snd k1) (snd k2)
  end.

Section Sorted.
Context {A : Type} (key : A -> bool * string).

Fixpoint insert_by (x : A) (l : list A) : list A :=
  match l with
  | [] => [x]
  | y :: l' =>
      if key_le (key x) (key y) then x :: l else y :: insert_by x l'
  end.

Definition sorted (l : list A) : list A := fold_right insert_by [] l.
End Sorted.

Definition sort_key (p : Path) : bool * string :=
  (negb (is_dir p), PyStr.lower (name p)).

(** Every entry below [p], at any depth, has an ASCII name. *)
Fixpoint ascii_entries (p : Path) : bool :=
  match p with
  | Dir _ _ (inr l) =>
      forallb (fun e => PyStr.isascii (name e) && ascii_entries e) l
  | _ => true
  end.

(** ** [get_entry_info] *)

Definition oct_digit (n : N) : ascii :=
  ascii_of_N (48 + n).

Fixpoint oct_digits (fuel : nat) (n : N) (acc : string) : string :=
  match fuel with
  | O => acc
  | S fuel' =>
      if (n <? 8)%N then String (oct_digit n) acc
      else oct_digits fuel' (n / 8)%N (String (oct_digit (n mod 8)%N) acc)
  end.

(** [oct(n)] for a non-negative [n] *)
Definition oct (n : N) : string :=
  "0o" +:+ oct_digits (S (N.to_nat (N.log2 n))) n "".

(** [s[-3:]] *)
Definition last3 (s : string) : string :=
  String.substring (String.length s - 3) 3 s.

Section Generators.
Variable self : Generator.

Definition get_entry_info (path : Path) : string :=
  let size_part :=
    if show_size (config self) && is_file path then
      match stat path with
      | Some s => [_format_size (Z.of_N (st_size s))]
      | None => []
      end
    else [] in
  let perm_part :=
    if show_permissions (config self) then
      match stat path with
      | Some s => ["[" +:+ last3 (oct (st_mode s)) +:+ "]"]
      | None => []
      end
    else [] in
  match (size_part ++ perm_part)%list with
  | [] => ""
  | info_parts => " " +:+ PyStr.join " " info_parts
  end.

(** [self.config.max_depth is not None and depth > self.config.max_depth] *)
Definition depth_exceeded (depth : Z) : bool :=
  match max_depth (config self) with
  | Some m => depth >? m
  | None => false
  end.

(** The condition of the list comprehension that filters the entries. *)
Definition keep_entry (e : Path) : bool :=
  negb (should_ignore self (name e)) &&
  (negb (dirs_only (config self)) || is_dir e).

(** The two statements inside [try:], shared word for word by the three
    generators.  The element type is left open: the generators pair
    every entry with the recursive call on it (see [with_rec]). *)
Definition list_entries {A : Type} (path_of : A -> Path) (l : list A) : list A :=
  List.filter (fun e => keep_entry (path_of e))
              (sorted (fun e => sort_key (path_of e)) l).

Definition incr_dirs (s : TreeStats) : TreeStats :=
  mkStats (S (total_dirs s)) (total_files s) (skipped s) (errors s).
Definition incr_files (s : TreeStats) : TreeStats :=
  mkStats (total_dirs s) (S (total_files s)) (skipped s) (errors s).
Definition incr_errors (s : TreeStats) : TreeStats :=
  mkStats (total_dirs s) (total_files s) (skipped s) (S (errors s)).

(** Every entry of a listing together with the recursive call on it, so
    that the recursion of a generator is structural in the directory
    although the loop runs over the sorted and filtered listing. *)
Definition with_rec {R : Type} (rec : Path -> R) (l : list Path) : list (Path * R) :=
  List.map (fun e => (e, rec e)) l.

(** *** [generate_tree_text] *)

Definition TextGen : Type := string -> Z -> TreeStats -> list string * TreeStats.

(** The [for i, entry in enumerate(entries)] loop. *)
Fixpoint text_loop (prefix : string) (depth : Z)
         (entries : list (Path * TextGen)) (st : TreeStats)
  : list string * TreeStats :=
  match entries with
  | [] => ([], st)
  | (entry, recurse) :: rest =>
      let is_last := match rest with [] => true | _ => false end in
      let st1 := if is_dir entry then incr_dirs st else incr_files st in
      let connector := if is_last then ELBOW else TEE in
      let info := get_entry_info entry in
      let line := prefix +:+ connector +:+ " " +:+ name entry +:+ info in
      let '(sub, st2) :=
        if is_dir entry then
          let extension := if is_last then SPACE else PIPE_SPACE in
          recurse (prefix +:+ extension) (depth + 1) st1
        else ([], st1) in
      let '(more, st3) := text_loop prefix depth rest st2 in
      (line :: (sub ++ more)%list, st3)
  end.

Fixpoint generate_tree_text (directory : Path) : TextGen :=
  fun prefix depth st =>
  if depth_exceeded depth then ([], st)
  else
    match directory with
    | File _ _ _ => ([], incr_errors st)
    | Dir _ _ (inl _) => ([], incr_errors st)
    | Dir _ _ (inr l) =>
        text_loop prefix depth
          (list_entries fst (with_rec generate_tree_text l)) st
    end.

(** *** [generate_tree_markdown] *)

Definition MdGen : Type := Z -> TreeStats -> list string * TreeStats.

Fixpoint repeat_string (n : nat) (s : string) : string :=
  match n with
  | O => ""
  | S n' => s +:+ repeat_string n' s
  end.

(** ["  " * depth]; a non-positive count gives the empty string. *)
Definition indent_of (depth : Z) : string := repeat_string (Z.to_nat depth) "  ".

Fixpoint markdown_loop (depth : Z) (entries : list (Path * MdGen))
         (st : TreeStats) : list string * TreeStats :=
  match entries with
  | [] => ([], st)
  | (entry, recurse) :: rest =>
      let indent := indent_of depth in
      let '(here, st2) :=
        if is_dir entry then
          let '(sub, st') := recurse (depth + 1) (incr_dirs st) in
          ((indent +:+ "- **" +:+ name entry +:+ "/**") :: sub, st')
        else
          ([indent +:+ "- " +:+ name entry +:+ get_entry_info entry],
           incr_files st) in
      let '(more, st3) := markdown_loop depth rest st2 in
      ((here ++ more)%list, st3)
  end.

Fixpoint generate_tree_markdown (directory : Path) : MdGen :=
  fun depth st =>
  if depth_exceeded depth then ([], st)
  else
    match directory with
    | File _ _ _ => ([], incr_errors st)
    | Dir _ _ (inl _) => ([], incr_errors st)
    | Dir _ _ (inr l) =>
        markdown_loop depth
          (list_entries fst (with_rec generate_tree_markdown l)) st
    end.
End Generators.

(** ** [generate_tree_json]

    The dictionaries the generator builds, as [json] sees them: keys in
    insertion order. *)

Inductive JValue :=
| JStr (s : string)
| JInt (n : Z)
| JList (l : list JValue)
| JDict (items : list (string * JValue)).

Section Json.
Variable self : Generator.

Definition JsonGen : Type := Z -> TreeStats -> JValue * TreeStats.

(** The dictionary [tree] before the loop, with the list that
    [tree["children"]] refers to. *)
Definition tree_dict (directory : Path) (children : list JValue)
  : list (string * JValue) :=
  [("name", JStr (name directory)); ("type", JStr "directory");
   ("children", JList children)].

(** The [else] branch of the loop: the dictionary [file_info]. *)
Definition file_info (entry : Path) : JValue :=
  let base := [("name", JStr (name entry)); ("type", JStr "file")] in
  JDict
    (if show_size (config self) then
       match stat entry with
       | Some s => (base ++ [("size", JInt (Z.of_N (st_size s)))])%list
       | None => base
       end
     else base).

Fixpoint json_loop (depth : Z) (entries : list (Path * JsonGen))
         (st : TreeStats) : list JValue * TreeStats :=
  match entries with
  | [] => ([], st)
  | (entry, recurse) :: rest =>
      let '(child, st2) :=
        if is_dir entry then recurse (depth + 1) (incr_dirs st)
        else (file_info entry, incr_files st) in
      let '(more, st3) := json_loop depth rest st2 in
      (child :: more, st3)
  end.

(** The [except] branch: [tree["error"] = str(e)] on the initial [tree]. *)
Definition error_tree (directory : Path) (e : PyExc) : JValue :=
  JDict (tree_dict directory [] ++ [("error", JStr (exc_str e))])%list.

Fixpoint generate_tree_json (directory : Path) : JsonGen :=
  fun depth st =>
  if depth_exceeded self depth then (JDict [], st)
  else
    match directory with
    | File _ _ _ =>
        match iterdir directory with
        | inl e => (error_tree directory e, incr_errors st)
        | inr _ => (JDict (tree_dict directory []), st)
        end
    | Dir _ _ (inl e) => (error_tree directory e, incr_errors st)
    | Dir _ _ (inr l) =>
        let '(children, st') :=
          json_loop depth
            (list_entries self fst (with_rec generate_tree_json l)) st in
        (JDict (tree_dict directory children), st')
    end.
End Json.

(** ** [generate_tree_html] and [generate_to_string]

    [json.dumps(_, indent=2)] belongs to the Python library, and the
    page that [generate_tree_html] emits is, but for three lines, a fixed
    list of string literals; both are parameters here.  The three lines
    that depend on the arguments are kept: the title and the heading,
    which carry [directory.name] as it is, and the line of the data, with
    the replacement of the closing script tag inside the serialised
    tree.  So is the [depth == 0] test. *)

Definition newline : string := String (ascii_of_nat 10) "".

(** The double quote, as a string. *)
Definition dquote : string := String (ascii_of_nat 34) "".

(** [s.replace(old, new)] for a non-empty [old]: left to right, without
    overlap.  [skip] counts the characters of a match still to be dropped. *)
Fixpoint replace_from (old new : string) (skip : nat) (s : string) : string :=
  match s with
  | EmptyString => EmptyString
  | String c s' =>
      match skip with
      | S k => replace_from old new k s'
      | O =>
          if String.prefix old s
          then new +:+ replace_from old new (String.length old - 1) s'
          else String c (replace_from old new 0 s')
      end
  end.

Definition replace (s old new : string) : string := replace_from old new 0 s.

(** The message of the [TypeError] Python raises for a call that leaves
    out [tree_data]. *)
Definition missing_tree_data : string :=
  "DirectoryTreeGenerator.generate_tree_html() missing 1 required positional argument: 'tree_data'".

Section Orchestrator.
Variable self : Generator.
(** [json.dumps(_, indent=2)] *)
Variable json_dumps : JValue -> string.
(** The literal lines of the page: before the title, between the title
    and the heading, between the heading and the data, after the data. *)
Variables html_head html_body html_tree html_tail : list string.
(** What [Path(directory)] denotes: nothing, a file or a directory. *)
Variable lookup : string -> option Path.

(** ['  <h1><i class="fas fa-folder-open"></i> ' + directory.name + '</h1>'] *)
Definition html_heading (directory : Path) : string :=
  "  <h1><i class=" +:+ dquote +:+ "fas fa-folder-open" +:+ dquote +:+ "></i> "
    +:+ name directory +:+ "</h1>".

Definition generate_tree_html (directory : Path) (tree_data : JValue)
           (depth : Z) : list string :=
  if depth =? 0 then
    (html_head
     ++ ["  <title>Directory Tree - " +:+ name directory +:+ "</title>"]
     ++ html_body
     ++ [html_heading directory]
     ++ html_tree
     ++ ["    const treeData = "
           +:+ replace (json_dumps tree_data) "</script>" "<\/script>"
           +:+ ";"]
     ++ html_tail)%list
  else [].

(** A call [self.generate_tree_html(directory[, tree_data[, depth]])]:
    [None] stands for an argument the call site does not pass.  The
    signature is [(self, directory, tree_data, depth=0)], so only
    [depth] may be left out. *)
Definition call_generate_tree_html (directory : Path)
           (tree_data : option JValue) (depth : option Z)
  : PyExc + list string :=
  match tree_data with
  | None => inl (TypeError missing_tree_data)
  | Some t => inr (generate_tree_html directory t (default 0 depth))
  end.

Definition generate_to_string (directory : string) (st : TreeStats)
  : (PyExc + string) * TreeStats :=
  match lookup directory with
  | None => (inl (FileNotFoundError ("Directory not found: " +:+ directory)), st)
  | Some dir_path =>
      if negb (is_dir dir_path) then
        (inl (NotADirectoryError ("Not a directory: " +:+ directory)), st)
      else
        match output_format self with
        | TEXT =>
            let '(lines, st') := generate_tree_text self dir_path "" 0 st in
            (inr (PyStr.join newline (name dir_path :: lines)), st')
        | MARKDOWN =>
            let '(lines, st') := generate_tree_markdown self dir_path 0 st in
            (inr (PyStr.join newline (("# " +:+ name dir_path) :: "" :: lines)), st')
        | HTML =>
            match call_generate_tree_html dir_path None None with
            | inl e => (inl e, st)
            | inr lines => (inr (PyStr.join newline lines), st)
            end
        | JSON =>
            let '(tree, st') := generate_tree_json self dir_path 0 st in
            (inr (json_dumps tree), st')
        end
  end.
End Orchestrator.

(** ** The canonical tree of the specification

    The design text describes one traversal, [walk], that builds a [Node]
    tree, and renderers that are projections of it.  The definitions of
    this part follow that text, not the Python module; the theorems
    compare them with the three generators above.  A node carries, next
    to the name, the [stat] data that the size and permission annotations
    print. *)

Inductive Node :=
| Directory (nname : string) (nstat : option StatResult) (children : list Node)
| FileNode (nname : string) (nregular : bool) (nstat : option StatResult)
| ErrorNode (nname : string) (nstat : option StatResult) (message : string).

Definition node_name (n : Node) : string :=
  match n with Directory m _ _ | FileNode m _ _ | ErrorNode m _ _ => m end.

Definition node_children (n : Node) : list Node :=
  match n with Directory _ _ ch => ch | _ => [] end.

(** A failed directory is still a directory entry of its parent. *)
Definition node_is_dir (n : Node) : bool :=
  match n with FileNode _ _ _ => false | _ => true end.

(** The entry a node was built from, as far as [get_entry_info] looks. *)
Definition node_entry (n : Node) : Path :=
  match n with
  | Directory m s _ | ErrorNode m s _ => Dir m s (inr [])
  | FileNode m r s => File m r s
  end.

Section FlatMapLast.
Context {A B : Type} (f : bool -> A -> list B).

(** [flat_map] that also tells [f] whether the element is the last one. *)
Fixpoint flat_map_last (l : list A) : list B :=
  match l with
  | [] => []
  | x :: l' => (f (match l' with [] => true | _ => false end) x
                ++ flat_map_last l')%list
  end.
End FlatMapLast.

Section Walk.
Variable self : Generator.

Definition WalkGen : Type := Z -> TreeStats -> Node * TreeStats.

(** "for each surviving entry, if it is a directory, increment dirs and
    recurse at depth+1 provided depth+1 <= max_depth (or unlimited),
    otherwise stop descent and include the entry as a childless
    Directory node; if it is a file, increment files and build a File
    node". *)
Fixpoint walk_loop (depth : Z) (entries : list (Path * WalkGen))
         (st : TreeStats) : list Node * TreeStats :=
  match entries with
  | [] => ([], st)
  | (entry, recurse) :: rest =>
      let '(child, st2) :=
        if is_dir entry then
          if depth_exceeded self (depth + 1)
          then (Directory (name entry) (stat entry) [], incr_dirs st)
          else recurse (depth + 1) (incr_dirs st)
        else (FileNode (name entry) (is_file entry) (stat entry),
              incr_files st) in
      let '(more, st3) := walk_loop depth rest st2 in
      (child :: more, st3)
  end.

(** "list directory entries; on a listing failure, increment errors,
    return an ErrorNode carrying the failure message; on success sort
    the entries, filter them" and run the loop. *)
Fixpoint walk (path : Path) : WalkGen :=
  fun depth st =>
  match path with
  | File m _ s =>
      match iterdir path with
      | inl e => (ErrorNode m s (exc_str e), incr_errors st)
      | inr _ => (Directory m s [], st)
      end
  | Dir m s (inl e) => (ErrorNode m s (exc_str e), incr_errors st)
  | Dir m s (inr l) =>
      let '(children, st') :=
        walk_loop depth (list_entries self fst (with_rec walk l)) st in
      (Directory m s children, st')
  end.

(** *** The renderers as projections *)

(** Text: one line per node, the corner connector for a last sibling,
    the children of a directory below it with the prefix extended. *)
Fixpoint text_of_node (prefix : string) (is_last : bool) (n : Node)
  : list string :=
  (prefix +:+ (if is_last then ELBOW else TEE) +:+ " " +:+ node_name n
          +:+ get_entry_info self (node_entry n))
  :: match n with
     | Directory _ _ ch =>
         flat_map_last
           (text_of_node (prefix +:+ (if is_last then SPACE else PIPE_SPACE)))
           ch
     | _ => []
     end.

Definition render_text (prefix : string) (nodes : list Node) : list string :=
  flat_map_last (text_of_node prefix) nodes.

(** Markdown: two spaces per level, a directory in bold with a slash. *)
Fixpoint markdown_of_node (depth : Z) (n : Node) : list string :=
  match n with
  | Directory m _ ch =>
      (indent_of depth +:+ "- **" +:+ m +:+ "/**")
      :: List.flat_map (markdown_of_node (depth + 1)) ch
  | ErrorNode m _ _ => [indent_of depth +:+ "- **" +:+ m +:+ "/**"]
  | FileNode m _ _ =>
      [indent_of depth +:+ "- " +:+ m +:+ get_entry_info self (node_entry n)]
  end.

Definition render_markdown (depth : Z) (nodes : list Node) : list string :=
  List.flat_map (markdown_of_node depth) nodes.

(** JSON: "direct structural mapping of Node to a nested object". *)
Fixpoint json_of_node (n : Node) : JValue :=
  match n with
  | Directory m s ch =>
      JDict (tree_dict (node_entry n) (List.map json_of_node ch))
  | FileNode _ _ _ => file_info self (node_entry n)
  | ErrorNode m s msg =>
      JDict (tree_dict (node_entry n) [] ++ [("error", JStr msg)])%list
  end.

(** The same mapping, except that a directory node lying deeper than
    [max_depth] is replaced by the empty object. *)
Fixpoint json_of_node_cut (depth : Z) (n : Node) : JValue :=
  match n with
  | Directory m s ch =>
      if depth_exceeded self depth then JDict []
      else JDict (tree_dict (node_entry n)
                    (List.map (json_of_node_cut (depth + 1)) ch))
  | FileNode _ _ _ => file_info self (node_entry n)
  | ErrorNode m s msg =>
      if depth_exceeded self depth then JDict []
      else JDict (tree_dict (node_entry n) [] ++ [("error", JStr msg)])%list
  end.
End Walk.

(** ** Reading the outputs back

    Counting and naming the objects of a JSON tree, the nodes of a [Node]
    tree, and the order the sentences about sibling order speak of. *)

(** Every dictionary of a JSON value, parents before children. *)
Fixpoint json_objects (j : JValue) : list (list (string * JValue)) :=
  match j with
  | JStr _ | JInt _ => []
  | JList l => List.flat_map json_objects l
  | JDict items =>
      items :: List.flat_map (fun kv => json_objects (snd kv)) items
  end.

Fixpoint dict_get (k : string) (items : list (string * JValue)) : option JValue :=
  match items with
  | [] => None
  | (k', v) :: rest => if String.eqb k' k then Some v else dict_get k rest
  end.

Definition has_type (ty : string) (items : list (string * JValue)) : bool :=
  match dict_get "type" items with
  | Some (JStr t) => String.eqb t ty
  | _ => false
  end.

Definition has_error (items : list (string * JValue)) : bool :=
  match dict_get "error" items with Some _ => true | None => false end.

Definition is_blank (items : list (string * JValue)) : bool :=
  match items with [] => true | _ => false end.

Definition count_objects (p : list (string * JValue) -> bool) (j : JValue) : nat :=
  List.length (List.filter p (json_objects j)).

(** The ["name"] of every object that has one, parents first. *)
Definition json_names (j : JValue) : list string :=
  List.flat_map
    (fun items => match dict_get "name" items with
                  | Some (JStr n) => [n]
                  | _ => []
                  end)
    (json_objects j).

Fixpoint node_names (n : Node) : list string :=
  node_name n ::
  match n with
  | Directory _ _ ch => List.flat_map node_names ch
  | _ => []
  end.

(** The file system in which every listing that fails yields nothing
    instead. *)
Fixpoint heal (p : Path) : Path :=
  match p with
  | File _ _ _ => p
  | Dir m s (inl _) => Dir m s (inr [])
  | Dir m s (inr l) => Dir m s (inr (List.map heal l))
  end.

(** A JSON tree without its ["error"] entries. *)
Fixpoint strip_errors (j : JValue) : JValue :=
  match j with
  | JStr _ | JInt _ => j
  | JList l => JList (List.map strip_errors l)
  | JDict items =>
      JDict (List.filter (fun kv => negb (String.eqb (fst kv) "error"))
               (List.map (fun kv => (fst kv, strip_errors (snd kv))) items))
  end.






(** ** Powers of 1024 and unit labels, for the statement about
    [_format_size] *)

Definition all_units : list string := (format_size_units ++ ["PB"])%list.

(** The number of divisions [format_size_loop] performs. *)
Fixpoint unit_index (units : list string) (size : Q) : nat :=
  match units with
  | [] => O
  | _ :: rest => if Qltb size 1024 then O else S (unit_index rest (size / 1024))
  end.

(** [_format_size] as the pair (unit position, printed tenths). *)
Definition size_rank (size : Z) : nat * Z :=
  (unit_index format_size_units (inject_Z (float_of_int size)),
   round_half_even
     (snd (format_size_loop format_size_units (inject_Z (float_of_int size))) * 10)).

Definition rank_le (a b : nat * Z) : Prop :=
  (fst a < fst b)%nat \/ (fst a = fst b /\ snd a <= snd b).

(** ** Agreement of a generator with [walk] on one directory *)

Definition text_agrees (self : Generator) (e : Path) : Prop :=
  forall prefix depth st,
    depth_exceeded self depth = false ->
    generate_tree_text self e prefix depth st =
    (render_text self prefix (node_children (fst (walk self e depth st))),
     snd (walk self e depth st)).

Definition markdown_agrees (self : Generator) (e : Path) : Prop :=
  forall depth st,
    depth_exceeded self depth = false ->
    generate_tree_markdown self e depth st =
    (render_markdown self depth (node_children (fst (walk self e depth st))),
     snd (walk self e depth st)).

Definition json_agrees (self : Generator) (e : Path) : Prop :=
  forall depth st,
    depth_exceeded self depth = false ->
    generate_tree_json self e depth st =
    (json_of_node_cut self depth (fst (walk self e depth st)),
     snd (walk self e depth st)).

(** ** Sample generators and directories *)

Module Sample.

Definition config_with (depth_limit : option Z) (patterns : gset string)
  : TreeConfig :=
  mkConfig depth_limit false false false false patterns.

(** [DirectoryTreeGenerator()] *)
Definition defaults (fmt : OutputFormat) : Generator :=
  Generator_init TreeConfig_new fmt.

(** [DirectoryTreeGenerator(config=TreeConfig(max_depth=1))] *)
Definition depth_one (fmt : OutputFormat) : Generator :=
  Generator_init (config_with (Some 1) ∅) fmt.

Definition empty_dir (m : string) : Path := Dir m None (inr []).
Definition plain_file (m : string) : Path := File m true None.

(** [tmp/level1/level2/level3], the tree of the test on [max_depth]. *)
Definition nested : Path :=
  Dir "tmp" None
    (inr [Dir "level1" None
            (inr [Dir "level2" None (inr [empty_dir "level3"])])]).


(** A directory that cannot be listed next to one that can. *)
Definition denied : PyExc :=
  PermissionError "[Errno 13] Permission denied: 'locked'".
Definition with_locked : Path :=
  Dir "r" None (inr [Dir "locked" None (inl denied); empty_dir "open";
                     plain_file "z.txt"]).
Definition with_unlocked : Path :=
  Dir "r" None (inr [empty_dir "locked"; empty_dir "open";
                     plain_file "z.txt"]).

(** An empty directory whose own name is in the built-in ignore set. *)
Definition ignored_root : Path := empty_dir "node_modules".

(** A file system in which every path string denotes [p]. *)
Definition only (p : Path) : string -> option Path := fun _ => Some p.
Definition nothing : string -> option Path := fun _ => None.

(** A stand-in for [json.dumps] where its text does not matter. *)
Definition no_dumps : JValue -> string := fun _ => "".

End Sample.

(** What one run of the JSON generator adds to the counters, read off
    the tree it returns. *)
Definition json_counted (st : TreeStats) (r : JValue * TreeStats) : Prop :=
  (total_dirs (snd r) + 1
   = total_dirs st + count_objects (has_type "directory") (fst r)
     + count_objects is_blank (fst r))%nat /\
  (total_files (snd r)
   = total_files st + count_objects (has_type "file") (fst r))%nat /\
  (errors (snd r) = errors st + count_objects has_error (fst r))%nat /\
  skipped (snd r) = skipped st.

(** Two statistics records that agree on everything but [errors]. *)
Definition same_counts (a b : TreeStats) : Prop :=
  total_dirs a = total_dirs b /\ total_files a = total_files b /\
  skipped a = skipped b.




(** ** Further vocabulary for the properties of the second part *)

(** The configuration with one more ignore pattern, as one more
    [--ignore] option makes it. *)
Definition add_pattern (p : string) (cfg : TreeConfig) : TreeConfig :=
  mkConfig (max_depth cfg) (show_hidden cfg) (dirs_only cfg) (show_size cfg)
           (show_permissions cfg) ({[ p ]} ∪ cfg_ignore_patterns cfg).

(** Counter-wise sum of two statistics records. *)
Definition stats_add (a b : TreeStats) : TreeStats :=
  mkStats (total_dirs a + total_dirs b) (total_files a + total_files b)
          (skipped a + skipped b) (errors a + errors b).

(** The number of object levels of a JSON value: 1 for an object without
    objects inside. *)
Fixpoint json_height (j : JValue) : nat :=
  match j with
  | JStr _ | JInt _ => O
  | JList l => List.fold_right (fun x acc => Nat.max (json_height x) acc) O l
  | JDict items =>
      S (List.fold_right (fun kv acc => Nat.max (json_height (snd kv)) acc) O items)
  end.

(** [old in s] *)
Fixpoint occurs (old s : string) : bool :=
  String.prefix old s ||
  match s with
  | EmptyString => false
  | String _ s' => occurs old s'
  end.


(** The shapes an object of the JSON tree can have. *)
Definition json_object_shape (self : Generator)
           (items : list (string * JValue)) : Prop :=
  items = [] \/
  (exists n ch, items = [("name", JStr n); ("type", JStr "directory");
                         ("children", JList ch)]) \/
  (exists n msg, items = [("name", JStr n); ("type", JStr "directory");
                          ("children", JList []); ("error", JStr msg)]) \/
  (exists n, items = [("name", JStr n); ("type", JStr "file")]) \/
  (exists n size, show_size (config self) = true /\ 0 <= size /\
                  items = [("name", JStr n); ("type", JStr "file");
                           ("size", JInt size)]).


(** ** [get_extension_for_format], [generate_to_file] and [main]

    [pathlib]'s [suffix] and [with_suffix], the built-in [open] and
    [print], and the [write] of the opened file belong to the Python
    library and to the file system the output goes to; they are
    parameters, each with the exception it may raise.  So is the effect
    of [open] on the directory that is being listed.  Logging is left
    out: [logging] handles what goes wrong inside it. *)

Definition get_extension_for_format (format : OutputFormat) : string :=
  match format with
  | TEXT => ".txt"
  | MARKDOWN => ".md"
  | HTML => ".html"
  | JSON => ".json"
  end.

(** [d[k] = v] on the items of a dictionary: the value is replaced where
    the key is, otherwise the pair is added at the end. *)
Fixpoint dict_set (k : string) (v : JValue) (items : list (string * JValue))
  : list (string * JValue) :=
  match items with
  | [] => [(k, v)]
  | (k', v') :: rest =>
      if String.eqb k' k then (k, v) :: rest else (k', v') :: dict_set k v rest
  end.

(** [j[k] = v]; only a dictionary supports it. *)
Definition set_item (j : JValue) (k : string) (v : JValue) : PyExc + JValue :=
  match j with
  | JDict items => inr (JDict (dict_set k v items))
  | _ => inl (TypeError "object does not support item assignment")
  end.

(** What a call that returns leaves on disk: the file and its text. *)
Record Written := mkWritten { written_path : string; written_text : string }.

Section FileOutput.
Variable self : Generator.
Variable json_dumps : JValue -> string.
Variables html_head html_body html_tree html_tail : list string.
Variable lookup : string -> option Path.
(** [Path(p).suffix] *)
Variable path_suffix : string -> string.
(** [Path(p).with_suffix(ext)], which raises for a path without a name *)
Variable path_with_suffix : string -> string -> PyExc + string.
(** [open(p, 'w', encoding='utf-8')]: the exception it raises, if any *)
Variable open_for_writing : string -> option PyExc.
(** The directory as a traversal finds it once [open(p, 'w')] has
    created or emptied the file [p]: the directory itself, unless the
    file lies in it or below it. *)
Variable after_open : string -> Path -> Path.
(** [f.write(text)]: the exception it raises, if any.  The file encodes
    to UTF-8, which refuses a name that is no valid text; what the
    operating system refuses later, while the text is flushed, surfaces
    when the [with] block closes the file. *)
Variable file_write : string -> option PyExc.

(** The dictionary stored under ["stats"] for the HTML page. *)
Definition stats_dict (st : TreeStats) (dir_path : Path) : JValue :=
  JDict [("dirs", JInt (Z.of_nat (total_dirs st)));
         ("files", JInt (Z.of_nat (total_files st)));
         ("root", JStr (name dir_path))].

(** The statements below [try:] for one format, the output path being
    settled.  For HTML the tree is built before the file is opened; for
    the other formats the file is opened first and the traversal runs
    inside the [with] block, for text and Markdown after the first
    [write].  [json.dump] writes what [json.dumps] returns. *)
Definition write_tree (dir_path : Path) (output_path : string) (st : TreeStats)
  : (PyExc + Written) * TreeStats :=
  match output_format self with
  | HTML =>
      let '(tree_data, st1) := generate_tree_json self dir_path 0 st in
      match set_item tree_data "stats" (stats_dict st1 dir_path) with
      | inl e => (inl e, st1)
      | inr tree_data =>
          match open_for_writing output_path with
          | Some e => (inl e, st1)
          | None =>
              match call_generate_tree_html json_dumps html_head html_body
                      html_tree html_tail dir_path (Some tree_data) None with
              | inl e => (inl e, st1)
              | inr lines =>
                  let text := PyStr.join newline lines in
                  match file_write text with
                  | Some e => (inl e, st1)
                  | None => (inr (mkWritten output_path text), st1)
                  end
              end
          end
      end
  | JSON =>
      match open_for_writing output_path with
      | Some e => (inl e, st)
      | None =>
          let '(tree, st1) :=
            generate_tree_json self (after_open output_path dir_path) 0 st in
          let text := json_dumps tree in
          match file_write text with
          | Some e => (inl e, st1)
          | None => (inr (mkWritten output_path text), st1)
          end
      end
  | TEXT =>
      match open_for_writing output_path with
      | Some e => (inl e, st)
      | None =>
          let title := name dir_path +:+ newline in
          match file_write title with
          | Some e => (inl e, st)
          | None =>
              let '(lines, st1) :=
                generate_tree_text self (after_open output_path dir_path) "" 0 st in
              let text := PyStr.join newline lines in
              match file_write text with
              | Some e => (inl e, st1)
              | None => (inr (mkWritten output_path (title +:+ text)), st1)
              end
          end
      end
  | MARKDOWN =>
      match open_for_writing output_path with
      | Some e => (inl e, st)
      | None =>
          let title := "# " +:+ name dir_path +:+ newline +:+ newline in
          match file_write title with
          | Some e => (inl e, st)
          | None =>
              let '(lines, st1) :=
                generate_tree_markdown self (after_open output_path dir_path) 0 st in
              let text := PyStr.join newline lines in
              match file_write text with
              | Some e => (inl e, st1)
              | None => (inr (mkWritten output_path (title +:+ text)), st1)
              end
          end
      end
  end.


(** "Handle file extension": the path the file is written to. *)
Definition adjusted_output_path (output_path : string) : PyExc + string :=
  let correct_extension := get_extension_for_format (output_format self) in
  if String.eqb (path_suffix output_path) ""
     || negb (String.eqb (path_suffix output_path) correct_extension)
  then path_with_suffix output_path correct_extension
  else inr output_path.

Definition generate_to_file (directory output_path : string) (st : TreeStats)
  : (PyExc + Written) * TreeStats :=
  match lookup directory with
  | None => (inl (FileNotFoundError ("Directory not found: " +:+ directory)), st)
  | Some dir_path =>
      if negb (is_dir dir_path) then
        (inl (NotADirectoryError ("Not a directory: " +:+ directory)), st)
      else
        match adjusted_output_path output_path with
        | inl e => (inl e, st)
        | inr output_path => write_tree dir_path output_path st
        end
  end.
End FileOutput.


(** [OutputFormat(value)]: the member with that value, if any. *)
Definition OutputFormat_of_value (v : string) : option OutputFormat :=
  if String.eqb v "text" then Some TEXT
  else if String.eqb v "markdown" then Some MARKDOWN
  else if String.eqb v "html" then Some HTML
  else if String.eqb v "json" then Some JSON
  else None.

(** The options of the command line, as [argparse] reads them. *)
Record Args := mkArgs {
  arg_directory : option string;
  arg_output : option string;
  arg_format : string;
  arg_max_depth : option Z;
  arg_show_hidden : bool;
  arg_dirs_only : bool;
  arg_show_size : bool;
  arg_show_permissions : bool;
  arg_ignore : option (list string);
  arg_verbose : bool
}.

(** Truth value of an optional string: [None] and [''] are false. *)
Definition truthy (s : option string) : bool :=
  match s with
  | Some (String _ _) => true
  | _ => false
  end.

(** [TreeConfig(max_depth=args.max_depth, ...)] as [main] builds it. *)
Definition config_of_args (args : Args) : TreeConfig :=
  mkConfig (arg_max_depth args) (arg_show_hidden args) (arg_dirs_only args)
           (arg_show_size args) (arg_show_permissions args)
           (match arg_ignore args with
            | Some (p :: ps) => list_to_set (p :: ps)
            | _ => ∅
            end).

Section Main.
Variable json_dumps : JValue -> string.
Variables html_head html_body html_tree html_tail : list string.
Variable lookup : string -> option Path.
Variable path_suffix : string -> string.
Variable path_with_suffix : string -> string -> PyExc + string.
Variable open_for_writing : string -> option PyExc.
Variable after_open : string -> Path -> Path.
Variable file_write : string -> option PyExc.
(** [print(text)]: the exception it raises, if any; the standard output
    may refuse a text as a file does. *)
Variable print_line : string -> option PyExc.
(** What [interactive_mode()] returns once the user has answered, or
    [None] when the user interrupts it. *)
Variable interactive_mode : option (string * string * TreeConfig * OutputFormat).

(** [main]: the exit status of the process and the file it wrote in
    full.  [parse_args] ends the process with status 2 for a format
    outside [choices]; an exception that [main] does not catch ends it
    with status 1, and so does one raised while a handler prints its
    message.  A run that the user interrupts from the keyboard, which
    ends with status 130 wherever it happens, is followed only as far as
    [interactive_mode]. *)
Definition main (args : Args) : Z * option Written :=
  match OutputFormat_of_value (arg_format args) with
  | None => (2, None)
  | Some parsed_format =>
      let chosen : Z + (string * string * TreeConfig * OutputFormat) :=
        if truthy (arg_directory args) && truthy (arg_output args) then
          inr (default "" (arg_directory args), default "" (arg_output args),
               config_of_args args, parsed_format)
        else
          match interactive_mode with
          | Some answers => inr answers
          | None => inl 130
          end in
      match chosen with
      | inl status => (status, None)
      | inr (source_dir, output_path, config, output_format) =>
          let generator := Generator_init config output_format in
          match generate_to_file generator json_dumps html_head html_body
                  html_tree html_tail lookup path_suffix path_with_suffix
                  open_for_writing after_open file_write
                  source_dir output_path TreeStats_new with
          | (inl _, _) => (1, None)
          | (inr w, stats) =>
              match print_line (newline +:+ "Output saved to: " +:+ output_path) with
              | Some _ => (1, Some w)
              | None => (if (0 <? errors stats)%nat then 1 else 0, Some w)
              end
          end
      end
  end.
End Main.


(** Simple stand-ins for the library and the disk, for closed examples. *)
Module Disk.

(** Every path already ends in [.txt]. *)
Definition suffix_txt : string -> string := fun _ => ".txt".
(** No path has a suffix yet. *)
Definition no_suffix : string -> string := fun _ => "".
(** [with_suffix] on a path without suffix. *)
Definition add_suffix : string -> string -> PyExc + string :=
  fun p ext => inr (p +:+ ext).
Definition writable : string -> option PyExc := fun _ => None.
Definition read_only : string -> option PyExc :=
  fun p => Some (PermissionError ("[Errno 13] Permission denied: '" +:+ p +:+ "'")).

(** The output file lies outside the directory that is listed. *)
Definition elsewhere : string -> Path -> Path := fun _ d => d.
(** The output file is a new entry of the directory that is listed. *)
Definition created_in : string -> Path -> Path :=
  fun p d =>
    match d with
    | Dir n s (inr l) => Dir n s (inr (l ++ [File p true None])%list)
    | _ => d
    end.

(** A file, or a terminal, that takes every text. *)
Definition accepts : string -> option PyExc := fun _ => None.
(** An encoder that refuses the byte [c]. *)
Definition refuses (c : ascii) : string -> option PyExc :=
  fun text =>
    if PyStr.contains_char c text
    then Some (UnicodeEncodeError "surrogates not allowed")
    else None.

(** [prog src out] with every option at its default. *)
Definition plain_args (src out fmt : string) : Args :=
  mkArgs (Some src) (Some out) fmt None false false false false None false.

End Disk.

(** * Properties *)

(** ** Python string primitives *)

Lemma append_cons (a : ascii) (s t : string) :
  String a s +:+ t = String a (s +:+ t).
Proof. reflexivity. Qed.

Lemma append_nil (t : string) : "" +:+ t = t.
Proof. reflexivity. Qed.

Lemma startswith_iff (s p : string) :
  PyStr.startswith s p = true <-> exists t, s = p +:+ t.
Proof.
  unfold PyStr.startswith. revert s.
  induction p as [|a p IH]; intros s; simpl.
  - destruct s; split; eauto.
  - destruct s as [|b s]; simpl.
    + split; [discriminate | intros [t Ht]; discriminate].
    + destruct (ascii_dec a b) as [->|Hne].
      * rewrite IH. split; intros [t Ht]; exists t.
        -- rewrite append_cons. congruence.
        -- rewrite append_cons in Ht. congruence.
      * split; [discriminate | intros [t Ht]; rewrite append_cons in Ht; congruence].
Qed.

Lemma startswith_app (p t : string) : PyStr.startswith (p +:+ t) p = true.
Proof. apply startswith_iff. eauto. Qed.

Lemma string_length_app (s t : string) :
  String.length (s +:+ t) = (String.length s + String.length t)%nat.
Proof. induction s; [reflexivity|]. rewrite append_cons. simpl. congruence. Qed.

Lemma substring_all (p : string) : String.substring 0 (String.length p) p = p.
Proof. induction p; simpl; congruence. Qed.

Lemma substring_after (t p : string) :
  String.substring (String.length t) (String.length p) (t +:+ p) = p.
Proof.
  induction t; [apply substring_all|]. rewrite append_cons. simpl. assumption.
Qed.

Lemma substring_split (s : string) (n : nat) :
  (n <= String.length s)%nat ->
  s = String.substring 0 n s +:+ String.substring n (String.length s - n) s.
Proof.
  revert n. induction s as [|a s IH]; intros n Hn; simpl in *.
  - destruct n; [reflexivity | lia].
  - destruct n as [|n]; simpl.
    + rewrite append_nil, substring_all. reflexivity.
    + rewrite append_cons. f_equal. apply IH. lia.
Qed.

Lemma endswith_iff (s p : string) :
  PyStr.endswith s p = true <-> exists t, s = t +:+ p.
Proof.
  unfold PyStr.endswith. rewrite andb_true_iff, Nat.leb_le, String.eqb_eq.
  split.
  - intros [Hlen Hsub].
    exists (String.substring 0 (String.length s - String.length p) s).
    pose proof (substring_split s (String.length s - String.length p)) as H.
    replace (String.length s - (String.length s - String.length p))%nat
      with (String.length p) in H by lia.
    rewrite Hsub in H. apply H. lia.
  - intros [t ->]. rewrite string_length_app. split; [lia|].
    replace (String.length t + String.length p - String.length p)%nat
      with (String.length t) by lia.
    apply substring_after.
Qed.

Lemma drop_last_app (pre : string) : PyStr.drop_last (pre +:+ "*") = pre.
Proof.
  induction pre as [|a pre IH]; [reflexivity|].
  change (String a pre +:+ "*") with (String a (pre +:+ "*")).
  simpl. rewrite IH. destruct pre; reflexivity.
Qed.

Lemma contains_char_app_r (c : ascii) (s t : string) :
  PyStr.contains_char c t = true -> PyStr.contains_char c (s +:+ t) = true.
Proof.
  intros H. induction s as [|a s IH]; simpl; [exact H|].
  change (String a s +:+ t) with (String a (s +:+ t)). simpl.
  rewrite IH. apply orb_true_r.
Qed.

(** What one pattern does in the loop of [should_ignore]. *)
Lemma wildcard_hit_iff (entry pattern : string) :
  wildcard_hit entry pattern = true <->
  (exists suffix, pattern = "*" +:+ suffix /\ exists t, entry = t +:+ suffix) \/
  (PyStr.startswith pattern "*" = false /\
   exists prefix, pattern = prefix +:+ "*" /\ exists t, entry = prefix +:+ t).
Proof.
  unfold wildcard_hit.
  destruct (PyStr.startswith pattern "*") eqn:Hs.
  - apply startswith_iff in Hs as [suffix ->].
    change ("*" +:+ suffix) with (String "*"%char suffix).
    simpl PyStr.contains_char. simpl PyStr.drop_first.
    rewrite endswith_iff. split.
    + intros H. left. exists suffix. split; [reflexivity | exact H].
    + intros [[suffix' [Heq H]] | [Hf _]]; [|discriminate].
      change ("*" +:+ suffix') with (String "*"%char suffix') in Heq.
      injection Heq as ->. exact H.
  - destruct (PyStr.endswith pattern "*") eqn:He.
    + apply endswith_iff in He as [prefix ->].
      rewrite (contains_char_app_r "*"%char prefix "*" eq_refl), drop_last_app.
      rewrite startswith_iff. split.
      * intros H. right. split; [reflexivity|]. exists prefix. split; [reflexivity | exact H].
      * intros [[suffix [Heq _]] | [_ [prefix' [Heq H]]]].
        -- rewrite Heq, startswith_app in Hs. discriminate.
        -- assert (prefix' = prefix) as ->; [|exact H].
           rewrite <- (drop_last_app prefix'), <- Heq. apply drop_last_app.
    + split.
      * intros H. destruct (PyStr.contains_char "*"%char pattern); discriminate.
      * intros [[suffix [Heq _]] | [_ [prefix [Heq _]]]].
        -- rewrite Heq, startswith_app in Hs. discriminate.
        -- assert (PyStr.endswith pattern "*" = true) as He'
             by (apply endswith_iff; eauto).
           congruence.
Qed.

(** ** The ignore filter *)

Lemma should_ignore_iff (self : Generator) (entry : string) :
  should_ignore self entry = true <->
  (show_hidden (config self) = false /\ exists t, entry = "." +:+ t) \/
  entry ∈ ignore_patterns self \/
  (exists pattern, pattern ∈ ignore_patterns self /\
                   wildcard_hit entry pattern = true).
Proof.
  unfold should_ignore.
  destruct (show_hidden (config self)); simpl.
  - destruct (bool_decide (entry ∈ ignore_patterns self)) eqn:Hin.
    + apply bool_decide_eq_true in Hin. tauto.
    + apply bool_decide_eq_false in Hin. rewrite existsb_exists. split.
      * intros [p [Hp Hw]]. right; right. exists p. split; [|exact Hw].
        apply elem_of_elements, list_elem_of_In, Hp.
      * intros [[Hf _] | [Hi | [p [Hp Hw]]]]; [discriminate | contradiction |].
        exists p. split; [|exact Hw]. apply list_elem_of_In, elem_of_elements, Hp.
  - destruct (PyStr.startswith entry ".") eqn:Hdot.
    + apply startswith_iff in Hdot. tauto.
    + destruct (bool_decide (entry ∈ ignore_patterns self)) eqn:Hin.
      * apply bool_decide_eq_true in Hin. tauto.
      * apply bool_decide_eq_false in Hin. rewrite existsb_exists. split.
        -- intros [p [Hp Hw]]. right; right. exists p. split; [|exact Hw].
           apply elem_of_elements, list_elem_of_In, Hp.
        -- intros [[_ Hd] | [Hi | [p [Hp Hw]]]].
           ++ apply startswith_iff in Hd. congruence.
           ++ contradiction.
           ++ exists p. split; [|exact Hw].
              apply list_elem_of_In, elem_of_elements, Hp.
Qed.

(** C4, as amended.  A generator built by [__init__] ignores a name
    exactly when (a) hidden entries are not shown and the name starts with
    a dot, or (b) the name is a member of the merged ignore set, or some
    member of the form [*suffix] has the name end with [suffix], or some
    member of the form [prefix*] that does not itself begin with a star
    has the name start with [prefix].  The merged set is the union of the
    built-in set with the configured patterns, so every built-in name is
    ignored under every configuration. *)
Theorem should_ignore_characterised
        (cfg : TreeConfig) (fmt : OutputFormat) (entry : string) :
  let self := Generator_init cfg fmt in
  let merged := DEFAULT_IGNORE ∪ cfg_ignore_patterns cfg in
  ignore_patterns self = merged /\
  (should_ignore self entry = true <->
     (show_hidden cfg = false /\ exists t, entry = "." +:+ t) \/
     entry ∈ merged \/
     (exists suffix, "*" +:+ suffix ∈ merged /\ exists t, entry = t +:+ suffix) \/
     (exists prefix, prefix +:+ "*" ∈ merged /\
                     PyStr.startswith (prefix +:+ "*") "*" = false /\
                     exists t, entry = prefix +:+ t)) /\
  (forall d, d ∈ DEFAULT_IGNORE -> should_ignore self d = true).
Proof.
  intros self merged. split; [reflexivity|]. split.
  - rewrite should_ignore_iff. change (ignore_patterns self) with merged.
    change (show_hidden (config self)) with (show_hidden cfg).
    split.
    + intros [H | [H | [p [Hp Hw]]]]; [tauto | tauto |].
      apply wildcard_hit_iff in Hw as [[suffix [-> Ht]] | [Hs [prefix [-> Ht]]]].
      * right; right; left. eauto.
      * right; right; right. eauto.
    + intros [H | [H | [[suffix [Hp Ht]] | [prefix [Hp [Hs Ht]]]]]];
        [tauto | tauto | |].
      * right; right. exists ("*" +:+ suffix). split; [exact Hp|].
        apply wildcard_hit_iff. left. eauto.
      * right; right. exists (prefix +:+ "*"). split; [exact Hp|].
        apply wildcard_hit_iff. right. eauto.
  - intros d Hd. apply should_ignore_iff. right; left.
    change (ignore_patterns self) with merged. apply elem_of_union_l, Hd.
Qed.

(** C4, as stated, fails on a pattern with a star at both ends: with the
    pattern [*a*] the name [*ab] starts with the prefix [*a] of the form
    [prefix*], yet it is not ignored, because the pattern is only tried as
    [*suffix]. *)
Lemma should_ignore_star_at_both_ends :
  let cfg := mkConfig None false false false false {[ "*a*" ]} in
  let self := Generator_init cfg TEXT in
  let merged := DEFAULT_IGNORE ∪ cfg_ignore_patterns cfg in
  ~ (should_ignore self "*ab" = true <->
       (show_hidden cfg = false /\ exists t, "*ab" = "." +:+ t) \/
       "*ab" ∈ merged \/
       (exists suffix, "*" +:+ suffix ∈ merged /\ exists t, "*ab" = t +:+ suffix) \/
       (exists prefix, prefix +:+ "*" ∈ merged /\ exists t, "*ab" = prefix +:+ t)).
Proof.
  intros cfg self merged [_ H].
  assert (should_ignore self "*ab" = false) as Hf by (vm_compute; reflexivity).
  rewrite H in Hf; [discriminate|].
  right; right; right. exists "*a". split.
  - unfold merged, cfg. simpl cfg_ignore_patterns.
    rewrite elem_of_union, elem_of_singleton. right. reflexivity.
  - exists "b". reflexivity.
Qed.

(** ** The size formatter *)

Lemma Qltb_true (x y : Q) : Qltb x y = true <-> (x < y)%Q.
Proof.
  unfold Qltb. rewrite negb_true_iff. split.
  - intros H. apply Qnot_le_lt. intros Hle.
    apply Qle_bool_iff in Hle. congruence.
  - intros H. destruct (Qle_bool y x) eqn:E; [|reflexivity].
    apply Qle_bool_iff in E. exfalso. exact (Qlt_not_le _ _ H E).
Qed.

Lemma Qltb_false (x y : Q) : Qltb x y = false <-> (y <= x)%Q.
Proof.
  unfold Qltb. rewrite negb_false_iff. apply Qle_bool_iff.
Qed.

Lemma Qdiv_1024_le (x y : Q) : (x <= y)%Q -> (x / 1024 <= y / 1024)%Q.
Proof.
  intros H. unfold Qdiv. change (/ 1024)%Q with (1 # 1024)%Q. lra.
Qed.

Lemma round_half_even_mono (x y : Q) :
  (x <= y)%Q -> round_half_even x <= round_half_even y.
Proof.
  intros Hxy. pose proof (Qfloor_resp_le x y Hxy) as Hfl.
  destruct x as [n1 d1], y as [n2 d2].
  unfold Qle in Hxy. unfold round_half_even. simpl in *.
  pose proof (Z.div_mod n1 (Z.pos d1) ltac:(lia)) as E1.
  pose proof (Z.div_mod n2 (Z.pos d2) ltac:(lia)) as E2.
  pose proof (Z.mod_pos_bound n1 (Z.pos d1) ltac:(lia)) as B1.
  pose proof (Z.mod_pos_bound n2 (Z.pos d2) ltac:(lia)) as B2.
  set (f1 := n1 / Z.pos d1) in *. set (r1 := n1 mod Z.pos d1) in *.
  set (f2 := n2 / Z.pos d2) in *. set (r2 := n2 mod Z.pos d2) in *.
  set (D1 := Z.pos d1) in *. set (D2 := Z.pos d2) in *.
  assert (f1 < f2 \/ f1 = f2) as [Hlt | Heq] by lia.
  - destruct (Z.compare_spec (2 * r1) D1), (Z.compare_spec (2 * r2) D2);
      repeat match goal with |- context [if ?b then _ else _] => destruct b end;
      lia.
  - assert (r1 * D2 <= r2 * D1) as Hr by nia.
    destruct (Z.compare_spec (2 * r1) D1) as [T1|T1|T1],
             (Z.compare_spec (2 * r2) D2) as [T2|T2|T2];
      rewrite <- ?Heq;
      try (destruct (Z.even f1)); try lia; exfalso; nia.
Qed.

(** *** [float] of an [int] *)

Lemma round_half_even_near (n : Z) (d : positive) :
  let v := round_half_even (n # d) in
  n / Z.pos d <= v <= n / Z.pos d + 1 /\
  2 * Z.abs (v * Z.pos d - n) <= Z.pos d.
Proof.
  unfold round_half_even. cbn [Qnum Qden].
  pose proof (Z.div_mod n (Z.pos d) ltac:(lia)) as E.
  pose proof (Z.mod_pos_bound n (Z.pos d) ltac:(lia)) as B.
  set (f := n / Z.pos d) in *. set (r := n mod Z.pos d) in *.
  set (D := Z.pos d) in *.
  destruct (Z.compare_spec (2 * r) D);
    repeat match goal with |- context [if ?b then _ else _] => destruct b end;
    split; try lia; nia.
Qed.

Lemma float_of_int_small (n : Z) : Z.abs n < 2 ^ 53 -> float_of_int n = n.
Proof.
  intros H. unfold float_of_int.
  destruct (Z.abs n <? 2 ^ 53) eqn:E; [reflexivity|].
  apply Z.ltb_ge in E. lia.
Qed.

Lemma float_of_int_opp (n : Z) : float_of_int (- n) = - float_of_int n.
Proof.
  unfold float_of_int. rewrite Z.abs_opp, Z.sgn_opp.
  destruct (Z.abs n <? 2 ^ 53); lia.
Qed.

(** The kept bits of a large int: the scale [2^e], the mantissa before
    rounding between 2^52 and 2^53. *)
Lemma float_scale (n : Z) :
  2 ^ 53 <= n ->
  let e := Z.log2 n - 52 in
  1 <= e /\ 0 < 2 ^ e /\ Z.pos (Z.to_pos (2 ^ e)) = 2 ^ e /\
  2 ^ Z.log2 n = 2 ^ 52 * 2 ^ e /\ 2 ^ (Z.log2 n + 1) = 2 ^ 53 * 2 ^ e /\
  2 ^ 52 * 2 ^ e <= n < 2 ^ 53 * 2 ^ e.
Proof.
  intros Hn e.
  assert (0 < n) as Hpos by (change (2 ^ 53) with 9007199254740992 in Hn; lia).
  assert (53 <= Z.log2 n) as HL by (apply Z.log2_le_pow2; [exact Hpos | exact Hn]).
  assert (1 <= e) as He by (unfold e; lia).
  assert (0 < 2 ^ e) as Hd by (apply Z.pow_pos_nonneg; lia).
  assert (2 ^ Z.log2 n = 2 ^ 52 * 2 ^ e) as E1
    by (rewrite <- Z.pow_add_r by lia; f_equal; unfold e; lia).
  assert (2 ^ (Z.log2 n + 1) = 2 ^ 53 * 2 ^ e) as E2
    by (rewrite <- Z.pow_add_r by lia; f_equal; unfold e; lia).
  pose proof (Z.log2_spec n Hpos) as [Hlo Hhi].
  change (Z.succ (Z.log2 n)) with (Z.log2 n + 1) in Hhi.
  repeat split; try assumption; lia.
Qed.

Lemma float_of_int_large (n : Z) :
  2 ^ 53 <= n ->
  float_of_int n
  = round_half_even (n # Z.to_pos (2 ^ (Z.log2 n - 52))) * 2 ^ (Z.log2 n - 52).
Proof.
  intros Hn. unfold float_of_int.
  assert (0 < n) as Hpos by (change (2 ^ 53) with 9007199254740992 in Hn; lia).
  rewrite Z.abs_eq by lia.
  destruct (n <? 2 ^ 53) eqn:E; [apply Z.ltb_lt in E; lia|].
  rewrite Z.sgn_pos by exact Hpos. lia.
Qed.

(** A large int and its double lie between the same two powers of two,
    and the double is off by at most half a unit of the last kept bit. *)
Lemma float_of_int_large_bounds (n : Z) :
  2 ^ 53 <= n ->
  2 ^ Z.log2 n <= float_of_int n <= 2 ^ (Z.log2 n + 1) /\
  Z.abs (float_of_int n - n) * 2 ^ 53 <= n.
Proof.
  intros Hn. rewrite (float_of_int_large n Hn).
  destruct (float_scale n Hn) as (He & Hd & Hpos & E1 & E2 & Hlo & Hhi).
  rewrite E1, E2.
  set (e := Z.log2 n - 52) in *.
  destruct (round_half_even_near n (Z.to_pos (2 ^ e))) as [[Hf1 Hf2] Herr].
  rewrite Hpos in Hf1, Hf2, Herr.
  set (v := round_half_even (n # Z.to_pos (2 ^ e))) in *.
  set (d := 2 ^ e) in *.
  assert (2 ^ 52 <= n / d) as Hq1 by (apply Z.div_le_lower_bound; lia).
  assert (n / d < 2 ^ 53) as Hq2 by (apply Z.div_lt_upper_bound; lia).
  change (2 ^ 52) with 4503599627370496 in *.
  change (2 ^ 53) with 9007199254740992 in *.
  repeat split; nia.
Qed.

Lemma float_of_int_nonneg_mono (a b : Z) :
  0 <= a <= b -> float_of_int a <= float_of_int b.
Proof.
  intros [Ha Hab].
  destruct (Z.lt_ge_cases b (2 ^ 53)) as [Hb | Hb].
  - rewrite !float_of_int_small by lia. exact Hab.
  - destruct (float_of_int_large_bounds b Hb) as [[Hb1 Hb2] _].
    destruct (Z.lt_ge_cases a (2 ^ 53)) as [Ha' | Ha'].
    + rewrite (float_of_int_small a) by lia.
      assert (2 ^ 53 <= 2 ^ Z.log2 b); [|lia].
      apply Z.pow_le_mono_r; [lia|].
      apply Z.log2_le_pow2; [|exact Hb].
      change (2 ^ 53) with 9007199254740992 in Hb. lia.
    + destruct (float_of_int_large_bounds a Ha') as [[Ha1 Ha2] _].
      assert (Z.log2 a <= Z.log2 b) as HL by (apply Z.log2_le_mono, Hab).
      apply Z.le_lteq in HL as [HL | HL].
      * assert (2 ^ (Z.log2 a + 1) <= 2 ^ Z.log2 b); [|lia].
        apply Z.pow_le_mono_r; lia.
      * rewrite (float_of_int_large a Ha'), (float_of_int_large b Hb), HL.
        destruct (float_scale b Hb) as (He & Hd & Hpos & _).
        apply Z.mul_le_mono_nonneg_r; [lia|].
        apply round_half_even_mono. unfold Qle. cbn [Qnum Qden].
        apply Z.mul_le_mono_nonneg_r; [lia | exact Hab].
Qed.

Lemma float_of_int_nonneg (n : Z) : 0 <= n -> 0 <= float_of_int n.
Proof.
  intros H. change 0 with (float_of_int 0) at 1.
  apply float_of_int_nonneg_mono. lia.
Qed.

Lemma float_of_int_mono (a b : Z) : a <= b -> float_of_int a <= float_of_int b.
Proof.
  intros Hab.
  destruct (Z.le_gt_cases 0 a) as [Ha | Ha].
  - apply float_of_int_nonneg_mono. lia.
  - destruct (Z.le_gt_cases 0 b) as [Hb | Hb].
    + pose proof (float_of_int_nonneg (- a) ltac:(lia)) as H1.
      pose proof (float_of_int_nonneg b Hb) as H2.
      rewrite float_of_int_opp in H1. lia.
    + pose proof (float_of_int_nonneg_mono (- b) (- a) ltac:(lia)) as H.
      rewrite !float_of_int_opp in H. lia.
Qed.

(** The double of an int is off by at most the relative error 2^-53. *)
Lemma float_of_int_accuracy (n : Z) :
  Z.abs (float_of_int n - n) * 2 ^ 53 <= Z.abs n.
Proof.
  destruct (Z.lt_ge_cases (Z.abs n) (2 ^ 53)) as [H | H].
  - rewrite float_of_int_small by exact H. rewrite Z.sub_diag. simpl. lia.
  - destruct (Z.le_gt_cases 0 n) as [Hn | Hn].
    + rewrite (Z.abs_eq n) in H |- * by lia.
      apply float_of_int_large_bounds, H.
    + assert (2 ^ 53 <= - n) as H' by lia.
      destruct (float_of_int_large_bounds (- n) H') as [_ Herr].
      rewrite float_of_int_opp in Herr.
      replace (- float_of_int n - - n) with (- (float_of_int n - n)) in Herr by lia.
      rewrite Z.abs_opp in Herr. lia.
Qed.

(** A threshold that is itself at most 2^53 separates the doubles as it
    separates the ints. *)
Lemma float_of_int_threshold (t n : Z) :
  0 <= t <= 2 ^ 53 -> (t <= float_of_int n <-> t <= n).
Proof.
  intros [Ht0 Ht].
  destruct (Z.lt_ge_cases (Z.abs n) (2 ^ 53)) as [H | H].
  - rewrite float_of_int_small by exact H. reflexivity.
  - destruct (Z.le_gt_cases 0 n) as [Hn | Hn].
    + assert (2 ^ 53 <= n) as H' by lia.
      destruct (float_of_int_large_bounds n H') as [[H1 _] _].
      assert (2 ^ 53 <= 2 ^ Z.log2 n).
      { apply Z.pow_le_mono_r; [lia|]. apply Z.log2_le_pow2; [|exact H'].
        change (2 ^ 53) with 9007199254740992 in H'. lia. }
      lia.
    + assert (2 ^ 53 <= - n) as H' by lia.
      destruct (float_of_int_large_bounds (- n) H') as [[H1 _] _].
      rewrite float_of_int_opp in H1.
      assert (0 < 2 ^ Z.log2 (- n))
        by (apply Z.pow_pos_nonneg; [lia | apply Z.log2_nonneg]).
      lia.
Qed.

(** What the loop of [_format_size] returns, for any list of unit labels
    still to be tried and any running value. *)
Lemma format_size_loop_spec (units : list string) (q : Q) :
  let k := unit_index units q in
  (k <= List.length units)%nat /\
  fst (format_size_loop units q) = List.nth k (units ++ ["PB"]) "" /\
  (snd (format_size_loop units q) == q / inject_Z (1024 ^ Z.of_nat k))%Q /\
  (forall j, (j < k)%nat -> (inject_Z (1024 ^ Z.of_nat (S j)) <= q)%Q) /\
  ((k < List.length units)%nat -> (q < inject_Z (1024 ^ Z.of_nat (S k)))%Q).
Proof.
  revert q. induction units as [|u rest IH]; intros q; simpl.
  - repeat split; try lia.
    + change (inject_Z (1024 ^ Z.of_nat 0)) with 1%Q. field.
  - destruct (Qltb q 1024) eqn:E; simpl.
    + apply Qltb_true in E. repeat split; try lia.
      * change (inject_Z (1024 ^ Z.of_nat 0)) with 1%Q. field.
      * intros _. exact E.
    + apply Qltb_false in E.
      destruct (IH (q / 1024)%Q) as (Hk & Hu & Hv & Hlo & Hhi).
      set (k := unit_index rest (q / 1024)%Q) in *.
      assert (Hpow : forall n : nat,
                 (inject_Z (1024 ^ Z.of_nat (S n)) == 1024 * inject_Z (1024 ^ Z.of_nat n))%Q).
      { intros n. rewrite Nat2Z.inj_succ, Z.pow_succ_r by lia.
        rewrite inject_Z_mult. reflexivity. }
      assert (Hpos : forall n : nat, (0 < inject_Z (1024 ^ Z.of_nat n))%Q).
      { intros n. change 0%Q with (inject_Z 0). rewrite <- Zlt_Qlt.
        apply Z.pow_pos_nonneg; lia. }
      repeat split.
      * lia.
      * exact Hu.
      * rewrite Hv, Hpow. field. pose proof (Hpos k). lra.
      * intros j Hj. destruct j as [|j].
        -- change (inject_Z (1024 ^ Z.of_nat 1)) with 1024%Q. exact E.
        -- rewrite Hpow. specialize (Hlo j ltac:(lia)).
           unfold Qdiv in Hlo. change (/ 1024)%Q with (1 # 1024)%Q in Hlo. lra.
      * intros Hlt. rewrite Hpow. specialize (Hhi ltac:(lia)).
        unfold Qdiv in Hhi. change (/ 1024)%Q with (1 # 1024)%Q in Hhi. lra.
Qed.

Lemma unit_index_mono (units : list string) (a b : Q) :
  (a <= b)%Q -> (unit_index units a <= unit_index units b)%nat.
Proof.
  revert a b. induction units as [|u rest IH]; intros a b Hab; simpl; [lia|].
  destruct (Qltb a 1024) eqn:Ea; [lia|].
  destruct (Qltb b 1024) eqn:Eb.
  - apply Qltb_false in Ea. apply Qltb_true in Eb. lra.
  - apply le_n_S, IH, Qdiv_1024_le, Hab.
Qed.

Lemma format_size_loop_mono (units : list string) (a b : Q) :
  (a <= b)%Q -> unit_index units a = unit_index units b ->
  (snd (format_size_loop units a) <= snd (format_size_loop units b))%Q.
Proof.
  revert a b. induction units as [|u rest IH]; intros a b Hab Hk; simpl in *.
  - exact Hab.
  - destruct (Qltb a 1024), (Qltb b 1024); simpl; try discriminate.
    + exact Hab.
    + apply IH; [apply Qdiv_1024_le, Hab | congruence].
Qed.

Lemma size_rank_mono (a b : Z) : a <= b -> rank_le (size_rank a) (size_rank b).
Proof.
  intros Hab. unfold rank_le, size_rank. cbn [fst snd].
  assert (inject_Z (float_of_int a) <= inject_Z (float_of_int b))%Q as Hq
    by (rewrite <- Zle_Qle; apply float_of_int_mono, Hab).
  pose proof (unit_index_mono format_size_units _ _ Hq) as Hk.
  apply Nat.le_lteq in Hk as [Hlt | Heq]; [left; exact Hlt | right].
  split; [exact Heq|].
  apply round_half_even_mono.
  apply Qmult_le_compat_r; [|discriminate].
  exact (format_size_loop_mono format_size_units _ _ Hq Heq).
Qed.

Lemma digits_of_Z_one_char (d : Z) :
  0 <= d < 10 -> String.length (digits_of_Z d) = 1%nat.
Proof.
  intros Hd.
  assert (d = 0 \/ d = 1 \/ d = 2 \/ d = 3 \/ d = 4 \/
          d = 5 \/ d = 6 \/ d = 7 \/ d = 8 \/ d = 9) as H by lia.
  repeat (destruct H as [-> | H]; [reflexivity|]). subst d. reflexivity.
Qed.

Lemma pow_1024_small (j : nat) :
  (j < 5)%nat -> 0 <= 1024 ^ Z.of_nat (S j) <= 2 ^ 53.
Proof.
  intros H.
  assert (j = 0 \/ j = 1 \/ j = 2 \/ j = 3 \/ j = 4)%nat as Hj by lia.
  repeat (destruct Hj as [-> | Hj]; [split; apply Z.leb_le; reflexivity|]).
  subst j. split; apply Z.leb_le; reflexivity.
Qed.

(** C6.  [_format_size] divides the byte count by 1024 while the running
    value is at least 1024 and a larger unit remains among B, KB, MB, GB,
    TB, PB: with [k] the position of the unit it prints, every earlier
    unit saw a value of at least 1024 and, unless [k] is the last unit,
    the value it prints is below 1024.  The value is
    [float(size) / 1024^k], where [float(size)] is the byte count itself
    below 2^53 and within a relative error of 2^-53 of it from there on,
    and it is printed as a whole part, a dot and exactly one digit,
    between parentheses and followed by the unit.  The result is monotone
    in the byte count (unit first, then the printed tenths), and 100,
    1024 and 1048576 bytes print as 100.0 B, 1.0 KB and 1.0 MB.  All of
    this for ints that [float] can convert. *)
Theorem format_size_spec (size a b : Z) (Hab : a <= b) :
  fits_float size = true -> fits_float a = true -> fits_float b = true ->
  let value := float_of_int size in
  let k := unit_index format_size_units (inject_Z value) in
  let unit := List.nth k all_units "" in
  (Z.abs size < 2 ^ 53 -> value = size) /\
  Z.abs (value - size) * 2 ^ 53 <= Z.abs size /\
  (k <= 5)%nat /\
  (forall j, (j < k)%nat -> 1024 ^ Z.of_nat (S j) <= size) /\
  ((k < 5)%nat -> size < 1024 ^ Z.of_nat (S k)) /\
  (exists (v : Q) (sign : string) (whole digit : Z),
      (v == inject_Z value / inject_Z (1024 ^ Z.of_nat k))%Q /\
      (sign = "" \/ sign = "-") /\ 0 <= whole /\ 0 <= digit < 10 /\
      whole * 10 + digit = Z.abs (round_half_even (v * 10)) /\
      String.length (digits_of_Z digit) = 1%nat /\
      _format_size size =
        "(" +:+ (sign +:+ digits_of_Z whole +:+ "." +:+ digits_of_Z digit)
            +:+ unit +:+ ")") /\
  rank_le (size_rank a) (size_rank b) /\
  _format_size 100 = "(100.0B)" /\
  _format_size 1024 = "(1.0KB)" /\
  _format_size 1048576 = "(1.0MB)".
Proof.
  intros _ _ _ value k unit.
  destruct (format_size_loop_spec format_size_units (inject_Z value))
    as (Hk & Hu & Hv & Hlo & Hhi).
  fold k in Hk, Hu, Hv, Hlo, Hhi. cbn [List.length format_size_units] in Hk, Hhi.
  split; [apply float_of_int_small|].
  split; [apply float_of_int_accuracy|].
  split; [exact Hk|]. split.
  { intros j Hj.
    apply (float_of_int_threshold _ size (pow_1024_small j ltac:(lia))).
    fold value. rewrite Zle_Qle. apply Hlo, Hj. }
  split.
  { intros Hlt. apply Z.nle_gt. intros Hge.
    apply (float_of_int_threshold _ size (pow_1024_small k Hlt)) in Hge.
    fold value in Hge. rewrite Zle_Qle in Hge.
    exact (Qlt_not_le _ _ (Hhi Hlt) Hge). }
  split.
  { unfold _format_size. fold value.
    destruct (format_size_loop format_size_units (inject_Z value)) as [u v].
    simpl in Hu, Hv. subst u. fold all_units. fold unit.
    unfold format_1f.
    set (t := Z.abs (round_half_even (v * 10))).
    exists v, (if Qltb v 0 then "-" else ""), (t / 10), (t mod 10).
    assert (0 <= t) as Ht by (unfold t; lia).
    pose proof (Z.mod_pos_bound t 10 ltac:(lia)) as Hm.
    split; [exact Hv|]. split; [destruct (Qltb v 0); auto|].
    split; [apply Z.div_pos; lia|]. split; [exact Hm|].
    split; [pose proof (Z.div_mod t 10 ltac:(lia)); lia|].
    split; [apply digits_of_Z_one_char, Hm | reflexivity]. }
  split; [apply size_rank_mono, Hab|].
  repeat split; vm_compute; reflexivity.
Qed.

Lemma format_size_spec_witness :
  1023 <= 1024 /\ fits_float 1023 = true /\ fits_float 1024 = true /\
  rank_le (size_rank 1023) (size_rank 1024) /\
  _format_size 1024 = "(1.0KB)".
Proof.
  assert (1023 <= 1024) as H by lia.
  assert (fits_float 1023 = true) as Ha by (vm_compute; reflexivity).
  assert (fits_float 1024 = true) as Hb by (vm_compute; reflexivity).
  split; [exact H|]. split; [exact Ha|]. split; [exact Hb|].
  pose proof (format_size_spec 1024 1023 1024 H Hb Ha Hb)
    as (_ & _ & _ & _ & _ & _ & Hm & _ & Hk & _).
  split; [exact Hm | exact Hk].
Defined.

(** From 2^53 bytes on the digit can differ from that of the exact
    quotient: 9063494250083123 bytes are 8.0499999... PB, and the double
    nearest to the count, 9063494250083124, is printed as 8.1 PB. *)
Example format_size_rounds_the_count_first :
  float_of_int 9063494250083123 = 9063494250083124 /\
  _format_size 9063494250083123 = "(8.1PB)" /\
  format_1f (9063494250083123 # Z.to_pos (1024 ^ 5)) = "8.0".
Proof. repeat split; vm_compute; reflexivity. Qed.

(** ** Induction over the file system *)

Lemma Path_ind_nested (P : Path -> Prop) :
  (forall m r s, P (File m r s)) ->
  (forall m s e, P (Dir m s (inl e))) ->
  (forall m s l, Forall P l -> P (Dir m s (inr l))) ->
  forall p, P p.
Proof.
  intros HF HE HL. fix IH 1. intros [m r s | m s [e | l]].
  - apply HF.
  - apply HE.
  - apply HL. induction l as [|x l IHl]; constructor; [apply IH | exact IHl].
Qed.

(** ** Sorting and filtering a listing *)

Section SortedFacts.
Context {A B : Type} (f : A -> B) (kA : A -> bool * string) (kB : B -> bool * string).
Hypothesis key_f : forall a, kB (f a) = kA a.

Lemma insert_by_map (x : A) (l : list A) :
  insert_by kB (f x) (List.map f l) = List.map f (insert_by kA x l).
Proof.
  induction l as [|y l IH]; simpl; [reflexivity|].
  rewrite !key_f. destruct (key_le (kA x) (kA y)); simpl; congruence.
Qed.

Lemma sorted_map (l : list A) :
  sorted kB (List.map f l) = List.map f (sorted kA l).
Proof.
  induction l as [|x l IH]; simpl; [reflexivity|].
  rewrite IH. apply insert_by_map.
Qed.
End SortedFacts.

Lemma filter_map_comm {A B : Type} (f : A -> B) (p : B -> bool) (l : list A) :
  List.filter p (List.map f l) = List.map f (List.filter (fun a => p (f a)) l).
Proof.
  induction l as [|x l IH]; simpl; [reflexivity|].
  destruct (p (f x)); simpl; congruence.
Qed.

(** The listing a generator loops over: the entries themselves. *)
Lemma list_entries_with_rec (self : Generator) {R : Type} (rec : Path -> R)
      (l : list Path) :
  list_entries self fst (with_rec rec l)
  = with_rec rec (list_entries self (fun e => e) l).
Proof.
  unfold list_entries, with_rec.
  rewrite (sorted_map (fun e => (e, rec e)) (fun e => sort_key e)
             (fun e => sort_key (fst e))) by reflexivity.
  apply (filter_map_comm (fun e => (e, rec e))
           (fun e => keep_entry self (fst e))).
Qed.

Lemma insert_by_In {A : Type} (key : A -> bool * string) (x y : A) (l : list A) :
  In y (insert_by key x l) <-> y = x \/ In y l.
Proof.
  induction l as [|z l IH]; simpl; [intuition|].
  destruct (key_le (key x) (key z)); simpl; rewrite ?IH; intuition.
Qed.

Lemma sorted_In {A : Type} (key : A -> bool * string) (y : A) (l : list A) :
  In y (sorted key l) <-> In y l.
Proof.
  induction l as [|x l IH]; simpl; [reflexivity|].
  rewrite insert_by_In, IH. intuition.
Qed.

Lemma list_entries_In (self : Generator) (e : Path) (l : list Path) :
  In e (list_entries self (fun e => e) l) <-> In e l /\ keep_entry self e = true.
Proof.
  unfold list_entries. rewrite filter_In, sorted_In. reflexivity.
Qed.

Lemma list_entries_Forall (self : Generator) (P : Path -> Prop) (l : list Path) :
  Forall P l -> Forall P (list_entries self (fun e => e) l).
Proof.
  rewrite !List.Forall_forall. intros H e He.
  apply list_entries_In in He as [He _]. auto.
Qed.

(** ** The generators, in the shape of the source

    Each generator on a readable directory runs its loop over the sorted
    and filtered listing, calling itself on the sub-directories. *)

Lemma generate_tree_text_eq (self : Generator) (directory : Path)
      (prefix : string) (depth : Z) (st : TreeStats) :
  generate_tree_text self directory prefix depth st =
  if depth_exceeded self depth then ([], st)
  else match iterdir directory with
       | inl _ => ([], incr_errors st)
       | inr l =>
           text_loop self prefix depth
             (with_rec (generate_tree_text self)
                       (list_entries self (fun e => e) l)) st
       end.
Proof.
  destruct directory as [m r s | m s [e | l]]; simpl;
    rewrite ?list_entries_with_rec; reflexivity.
Qed.

Lemma generate_tree_markdown_eq (self : Generator) (directory : Path)
      (depth : Z) (st : TreeStats) :
  generate_tree_markdown self directory depth st =
  if depth_exceeded self depth then ([], st)
  else match iterdir directory with
       | inl _ => ([], incr_errors st)
       | inr l =>
           markdown_loop self depth
             (with_rec (generate_tree_markdown self)
                       (list_entries self (fun e => e) l)) st
       end.
Proof.
  destruct directory as [m r s | m s [e | l]]; simpl;
    rewrite ?list_entries_with_rec; reflexivity.
Qed.

Lemma generate_tree_json_eq (self : Generator) (directory : Path)
      (depth : Z) (st : TreeStats) :
  generate_tree_json self directory depth st =
  if depth_exceeded self depth then (JDict [], st)
  else match iterdir directory with
       | inl e => (error_tree directory e, incr_errors st)
       | inr l =>
           let '(children, st') :=
             json_loop self depth
               (with_rec (generate_tree_json self)
                         (list_entries self (fun e => e) l)) st in
           (JDict (tree_dict directory children), st')
       end.
Proof.
  destruct directory as [m r s | m s [e | l]]; simpl;
    rewrite ?list_entries_with_rec; reflexivity.
Qed.

Lemma walk_eq (self : Generator) (path : Path) (depth : Z) (st : TreeStats) :
  walk self path depth st =
  match iterdir path with
  | inl e => (ErrorNode (name path) (stat path) (exc_str e), incr_errors st)
  | inr l =>
      let '(children, st') :=
        walk_loop self depth
          (with_rec (walk self) (list_entries self (fun e => e) l)) st in
      (Directory (name path) (stat path) children, st')
  end.
Proof.
  destruct path as [m r s | m s [e | l]]; simpl;
    rewrite ?list_entries_with_rec; reflexivity.
Qed.

(** ** The generators are projections of [walk] *)

Lemma get_entry_info_agree (self : Generator) (p q : Path) :
  is_file p = is_file q -> stat p = stat q ->
  get_entry_info self p = get_entry_info self q.
Proof. unfold get_entry_info. intros -> ->. reflexivity. Qed.

(** The node [walk] returns for a directory entry: a directory or an
    error node carrying the name and the [stat] data of the entry. *)
Lemma walk_node (self : Generator) (e : Path) (depth : Z) (st : TreeStats) :
  is_dir e = true ->
  let n := fst (walk self e depth st) in
  node_is_dir n = true /\ node_name n = name e /\
  node_entry n = Dir (name e) (stat e) (inr []).
Proof.
  intros He. rewrite walk_eq.
  destruct (iterdir e) as [x | l]; [simpl; auto|].
  destruct (walk_loop _ _ _ _) as [ch st']. simpl. auto.
Qed.

Lemma walk_loop_nil (self : Generator) (depth : Z)
      (es : list (Path * WalkGen)) (st : TreeStats) :
  fst (walk_loop self depth es st) = [] <-> es = [].
Proof.
  destruct es as [|[e r] es]; simpl; [tauto|].
  destruct (if is_dir e then _ else _) as [c st2].
  destruct (walk_loop self depth es st2). simpl. split; discriminate.
Qed.

Lemma is_last_walk_loop (self : Generator) {R B : Type} (rec : Path -> R)
      (depth : Z) (es : list Path) (st : TreeStats) (x y : B) :
  match with_rec rec es with [] => x | _ => y end =
  match fst (walk_loop self depth (with_rec (walk self) es) st) with
  | [] => x | _ => y
  end.
Proof.
  destruct es as [|e es]; [reflexivity|].
  destruct (fst (walk_loop self depth (with_rec (walk self) (e :: es)) st)) eqn:E;
    [|reflexivity].
  apply walk_loop_nil in E. discriminate.
Qed.

Lemma text_of_node_dir (self : Generator) (prefix : string) (is_last : bool)
      (n : Node) :
  node_is_dir n = true ->
  text_of_node self prefix is_last n =
  (prefix +:+ (if is_last then ELBOW else TEE) +:+ " " +:+ node_name n
          +:+ get_entry_info self (node_entry n))
  :: render_text self (prefix +:+ (if is_last then SPACE else PIPE_SPACE))
       (node_children n).
Proof. destruct n; simpl; intros H; try discriminate; reflexivity. Qed.

Lemma text_loop_walk (self : Generator) (es : list Path) :
  Forall (text_agrees self) es ->
  forall prefix depth st,
    text_loop self prefix depth (with_rec (generate_tree_text self) es) st =
    (render_text self prefix (fst (walk_loop self depth (with_rec (walk self) es) st)),
     snd (walk_loop self depth (with_rec (walk self) es) st)).
Proof.
  induction 1 as [|e es He Hes IH]; intros prefix depth st; [reflexivity|].
  change (with_rec (generate_tree_text self) (e :: es))
    with ((e, generate_tree_text self e) :: with_rec (generate_tree_text self) es).
  change (with_rec (walk self) (e :: es))
    with ((e, walk self e) :: with_rec (walk self) es).
  cbn [text_loop walk_loop].
  destruct (is_dir e) eqn:Hd.
  - (* a directory entry *)
    destruct (depth_exceeded self (depth + 1)) eqn:Hx.
    + rewrite generate_tree_text_eq, Hx.
      rewrite IH.
      destruct (walk_loop self depth (with_rec (walk self) es) (incr_dirs st))
        as [more st3] eqn:Hw.
      cbn [fst snd]. unfold render_text at 2. cbn [flat_map_last].
      rewrite (text_of_node_dir self) by reflexivity.
      cbn [node_name node_entry node_children render_text flat_map_last app].
      rewrite (is_last_walk_loop self (generate_tree_text self) depth es (incr_dirs st)).
      rewrite Hw. cbn [fst].
      rewrite (get_entry_info_agree self e (Dir (name e) (stat e) (inr [])))
        by (destruct e; [discriminate | reflexivity]).
      reflexivity.
    + rewrite (He _ _ _ Hx).
      destruct (walk self e (depth + 1) (incr_dirs st)) as [n st2] eqn:Hn.
      cbn [fst snd].
      rewrite IH.
      destruct (walk_loop self depth (with_rec (walk self) es) st2)
        as [more st3] eqn:Hw.
      cbn [fst snd]. unfold render_text at 3. cbn [flat_map_last].
      pose proof (walk_node self e (depth + 1) (incr_dirs st) Hd) as Hshape.
      rewrite Hn in Hshape. cbn [fst] in Hshape.
      destruct Hshape as (Hnd & Hnn & Hne).
      rewrite (text_of_node_dir self) by exact Hnd.
      rewrite Hnn, Hne.
      rewrite (is_last_walk_loop self (generate_tree_text self) depth es st2).
      rewrite Hw. cbn [fst].
      rewrite (get_entry_info_agree self e (Dir (name e) (stat e) (inr [])))
        by (destruct e; [discriminate | reflexivity]).
      reflexivity.
  - (* a file entry *)
    rewrite IH.
    destruct (walk_loop self depth (with_rec (walk self) es) (incr_files st))
      as [more st3] eqn:Hw.
    cbn [fst snd]. unfold render_text at 2. cbn [flat_map_last text_of_node].
    rewrite (is_last_walk_loop self (generate_tree_text self) depth es (incr_files st)).
    rewrite Hw. cbn [fst node_name node_entry].
    destruct e as [m r s | m s l]; [|discriminate].
    reflexivity.
Qed.

Lemma text_is_walk (self : Generator) (e : Path) : text_agrees self e.
Proof.
  induction e as [m r s | m s x | m s l IH] using Path_ind_nested;
    intros prefix depth st Hx;
    rewrite generate_tree_text_eq, walk_eq, Hx; cbn [iterdir]; try reflexivity.
  rewrite (text_loop_walk self _ (list_entries_Forall self _ _ IH)).
  destruct (walk_loop _ _ _ _) as [ch st']. reflexivity.
Qed.

Lemma markdown_of_node_dir (self : Generator) (depth : Z) (n : Node) :
  node_is_dir n = true ->
  markdown_of_node self depth n =
  (indent_of depth +:+ "- **" +:+ node_name n +:+ "/**")
  :: render_markdown self (depth + 1) (node_children n).
Proof. destruct n; simpl; intros H; try discriminate; reflexivity. Qed.

Lemma markdown_loop_walk (self : Generator) (es : list Path) :
  Forall (markdown_agrees self) es ->
  forall depth st,
    markdown_loop self depth (with_rec (generate_tree_markdown self) es) st =
    (render_markdown self depth
       (fst (walk_loop self depth (with_rec (walk self) es) st)),
     snd (walk_loop self depth (with_rec (walk self) es) st)).
Proof.
  induction 1 as [|e es He Hes IH]; intros depth st; [reflexivity|].
  change (with_rec (generate_tree_markdown self) (e :: es))
    with ((e, generate_tree_markdown self e)
            :: with_rec (generate_tree_markdown self) es).
  change (with_rec (walk self) (e :: es))
    with ((e, walk self e) :: with_rec (walk self) es).
  cbn [markdown_loop walk_loop].
  destruct (is_dir e) eqn:Hd.
  - destruct (depth_exceeded self (depth + 1)) eqn:Hx.
    + rewrite generate_tree_markdown_eq, Hx, IH.
      destruct (walk_loop self depth (with_rec (walk self) es) (incr_dirs st))
        as [more st3].
      reflexivity.
    + rewrite (He _ _ Hx).
      pose proof (walk_node self e (depth + 1) (incr_dirs st) Hd) as Hshape.
      destruct (walk self e (depth + 1) (incr_dirs st)) as [n st2].
      cbn [fst snd] in *. destruct Hshape as (Hnd & Hnn & _).
      rewrite IH.
      destruct (walk_loop self depth (with_rec (walk self) es) st2)
        as [more st3].
      cbn [fst snd]. unfold render_markdown at 3. cbn [List.flat_map].
      rewrite (markdown_of_node_dir self) by exact Hnd.
      rewrite Hnn. reflexivity.
  - rewrite IH.
    destruct (walk_loop self depth (with_rec (walk self) es) (incr_files st))
      as [more st3].
    destruct e as [m r s | m s l]; [|discriminate].
    reflexivity.
Qed.

Lemma markdown_is_walk (self : Generator) (e : Path) : markdown_agrees self e.
Proof.
  induction e as [m r s | m s x | m s l IH] using Path_ind_nested;
    intros depth st Hx;
    rewrite generate_tree_markdown_eq, walk_eq, Hx; cbn [iterdir];
    try reflexivity.
  rewrite (markdown_loop_walk self _ (list_entries_Forall self _ _ IH)).
  destruct (walk_loop _ _ _ _) as [ch st']. reflexivity.
Qed.

Lemma json_loop_walk (self : Generator) (es : list Path) :
  Forall (json_agrees self) es ->
  forall depth st,
    json_loop self depth (with_rec (generate_tree_json self) es) st =
    (List.map (json_of_node_cut self (depth + 1))
       (fst (walk_loop self depth (with_rec (walk self) es) st)),
     snd (walk_loop self depth (with_rec (walk self) es) st)).
Proof.
  induction 1 as [|e es He Hes IH]; intros depth st; [reflexivity|].
  change (with_rec (generate_tree_json self) (e :: es))
    with ((e, generate_tree_json self e)
            :: with_rec (generate_tree_json self) es).
  change (with_rec (walk self) (e :: es))
    with ((e, walk self e) :: with_rec (walk self) es).
  cbn [json_loop walk_loop].
  destruct (is_dir e) eqn:Hd.
  - destruct (depth_exceeded self (depth + 1)) eqn:Hx.
    + rewrite generate_tree_json_eq, Hx, IH.
      destruct (walk_loop self depth (with_rec (walk self) es) (incr_dirs st))
        as [more st3].
      cbn [fst snd List.map json_of_node_cut]. rewrite Hx. reflexivity.
    + rewrite (He _ _ Hx).
      destruct (walk self e (depth + 1) (incr_dirs st)) as [n st2].
      cbn [fst snd]. rewrite IH.
      destruct (walk_loop self depth (with_rec (walk self) es) st2)
        as [more st3].
      reflexivity.
  - rewrite IH.
    destruct (walk_loop self depth (with_rec (walk self) es) (incr_files st))
      as [more st3].
    destruct e as [m r s | m s l]; [|discriminate].
    reflexivity.
Qed.

Lemma json_is_walk (self : Generator) (e : Path) : json_agrees self e.
Proof.
  induction e as [m r s | m s x | m s l IH] using Path_ind_nested;
    intros depth st Hx;
    rewrite generate_tree_json_eq, walk_eq; cbn [iterdir];
    cbn [fst snd json_of_node_cut]; rewrite Hx; try reflexivity.
  rewrite (json_loop_walk self _ (list_entries_Forall self _ _ IH)).
  destruct (walk_loop _ _ _ _) as [ch st'].
  cbn [fst snd json_of_node_cut]. rewrite Hx. reflexivity.
Qed.

Lemma Node_ind_nested (P : Node -> Prop) :
  (forall m s ch, Forall P ch -> P (Directory m s ch)) ->
  (forall m r s, P (FileNode m r s)) ->
  (forall m s msg, P (ErrorNode m s msg)) ->
  forall n, P n.
Proof.
  intros HD HF HE. fix IH 1. intros [m s ch | m r s | m s msg].
  - apply HD. induction ch as [|c ch IHch]; constructor; [apply IH | exact IHch].
  - apply HF.
  - apply HE.
Qed.

Lemma map_ext_Forall {A B : Type} (f g : A -> B) (l : list A) :
  Forall (fun x => f x = g x) l -> List.map f l = List.map g l.
Proof. induction 1; simpl; congruence. Qed.

(** Without a depth limit nothing is cut out of the JSON tree. *)
Lemma json_of_node_cut_unlimited (self : Generator) (n : Node) :
  max_depth (config self) = None ->
  forall depth, json_of_node_cut self depth n = json_of_node self n.
Proof.
  intros Hm.
  assert (Hx : forall d, depth_exceeded self d = false)
    by (intros d; unfold depth_exceeded; rewrite Hm; reflexivity).
  induction n as [m s ch IH | m r s | m s msg] using Node_ind_nested;
    intros depth; cbn [json_of_node_cut json_of_node]; rewrite ?Hx;
    try reflexivity.
  f_equal. f_equal. apply map_ext_Forall.
  induction IH; constructor; auto.
Qed.

Lemma flat_map_flat_map {A B C : Type} (f : B -> list C) (g : A -> list B)
      (l : list A) :
  List.flat_map f (List.flat_map g l)
  = List.flat_map (fun x => List.flat_map f (g x)) l.
Proof.
  induction l as [|x l IH]; simpl; [reflexivity|].
  rewrite flat_map_app, IH. reflexivity.
Qed.

Lemma flat_map_of_map {A B C : Type} (f : B -> list C) (g : A -> B)
      (l : list A) :
  List.flat_map f (List.map g l) = List.flat_map (fun x => f (g x)) l.
Proof. induction l as [|x l IH]; simpl; congruence. Qed.

Lemma flat_map_ext_Forall {A B : Type} (f g : A -> list B) (l : list A) :
  Forall (fun x => f x = g x) l -> List.flat_map f l = List.flat_map g l.
Proof. induction 1; simpl; congruence. Qed.

Lemma json_objects_tree_dict (d : Path) (children : list JValue)
      (extra : list (string * JValue)) :
  (forall kv, In kv extra -> json_objects (snd kv) = []) ->
  json_objects (JDict (tree_dict d children ++ extra))
  = (tree_dict d children ++ extra)%list
      :: List.flat_map json_objects children.
Proof.
  intros Hextra. cbn [json_objects]. f_equal.
  unfold tree_dict. cbn [app List.flat_map snd json_objects].
  assert (List.flat_map (fun kv => json_objects (snd kv)) extra = []) as ->.
  { induction extra as [|kv extra IH]; [reflexivity|]. simpl.
    rewrite (Hextra kv) by (left; reflexivity).
    apply IH. intros kv' Hin. apply Hextra. right. exact Hin. }
  rewrite app_nil_r. reflexivity.
Qed.

Lemma json_objects_file_info (self : Generator) (e : Path) :
  exists items,
    file_info self e = JDict items /\ json_objects (JDict items) = [items] /\
    dict_get "name" items = Some (JStr (name e)) /\
    dict_get "type" items = Some (JStr "file") /\
    dict_get "error" items = None.
Proof.
  unfold file_info.
  destruct (show_size (config self)); [destruct (stat e)|];
    eexists; (split; [reflexivity|]); repeat split; reflexivity.
Qed.

(** The named objects of the structural JSON mapping are the nodes. *)
Lemma json_names_of_node (self : Generator) (n : Node) :
  json_names (json_of_node self n) = node_names n.
Proof.
  induction n as [m s ch IH | m r s | m s msg] using Node_ind_nested.
  - unfold json_names. cbn [json_of_node node_names node_name].
    rewrite <- (app_nil_r (tree_dict _ _)).
    rewrite json_objects_tree_dict by (intros kv []).
    cbn [List.flat_map]. rewrite app_nil_r.
    cbn [tree_dict dict_get String.eqb node_entry name]. simpl.
    f_equal. rewrite flat_map_flat_map, flat_map_of_map.
    apply flat_map_ext_Forall.
    induction IH; constructor; auto.
  - cbn [json_of_node node_names node_name node_entry].
    destruct (json_objects_file_info self (File m r s))
      as (items & -> & Ho & Hn & _).
    unfold json_names. rewrite Ho. simpl. rewrite Hn. reflexivity.
  - reflexivity.
Qed.

(** Every generator re-lists, re-sorts and re-filters each directory by
    itself, yet for every directory with ASCII entry names and every
    configuration the three outputs are projections of the one tree that
    [walk] builds, with one filtering and one sibling order, and they
    leave the same statistics:
    text and Markdown are the renderings of its children, and the JSON
    value is the structural mapping of the tree, in which a directory
    node lying deeper than [max_depth] is replaced by the empty object.
    Without a depth limit nothing is replaced and the named JSON objects
    are exactly the nodes of the tree. *)
Theorem generators_project_one_walk
        (self : Generator) (directory : Path) (prefix : string) (depth : Z)
        (st : TreeStats) :
  depth_exceeded self depth = false ->
  ascii_entries directory = true ->
  let node := fst (walk self directory depth st) in
  let st' := snd (walk self directory depth st) in
  generate_tree_text self directory prefix depth st
    = (render_text self prefix (node_children node), st') /\
  generate_tree_markdown self directory depth st
    = (render_markdown self depth (node_children node), st') /\
  generate_tree_json self directory depth st
    = (json_of_node_cut self depth node, st') /\
  (max_depth (config self) = None ->
   generate_tree_json self directory depth st = (json_of_node self node, st') /\
   json_names (fst (generate_tree_json self directory depth st))
     = node_names node).
Proof.
  intros Hx _ node st'.
  pose proof (json_is_walk self directory depth st Hx) as Hj.
  split; [apply text_is_walk, Hx|].
  split; [apply markdown_is_walk, Hx|].
  split; [exact Hj|].
  intros Hm. rewrite Hj. cbn [fst].
  rewrite (json_of_node_cut_unlimited self _ Hm).
  split; [reflexivity | apply json_names_of_node].
Qed.

Lemma generators_project_one_walk_witness :
  depth_exceeded (Sample.defaults TEXT) 0 = false /\
  generate_tree_text (Sample.defaults TEXT) Sample.with_locked "" 0 TreeStats_new
  = (render_text (Sample.defaults TEXT) ""
       (node_children
          (fst (walk (Sample.defaults TEXT) Sample.with_locked 0 TreeStats_new))),
     snd (walk (Sample.defaults TEXT) Sample.with_locked 0 TreeStats_new)).
Proof.
  split; [reflexivity|].
  apply (generators_project_one_walk
           (Sample.defaults TEXT) Sample.with_locked "" 0 TreeStats_new);
    reflexivity.
Defined.

Lemma json_of_node_not_blank (self : Generator) (n : Node) :
  json_of_node self n <> JDict [].
Proof.
  destruct n as [m s ch | m r s | m s msg]; cbn [json_of_node].
  - discriminate.
  - destruct (json_objects_file_info self (node_entry (FileNode m r s)))
      as (items & -> & _ & Hn & _).
    intros H. injection H as ->. discriminate.
  - discriminate.
Qed.

(** C1, the failing input.  With [max_depth = 1] and the directories
    [tmp/level1/level2/level3] of the test on [max_depth], the three
    generators do not render the same entries: text and Markdown show
    [level2], while the JSON generator returns the empty object for it,
    which its caller appends as a child.  No JSON object is named
    [level2], and the JSON value is the structural mapping of no [Node]
    tree at all. *)
Lemma json_drops_directory_shown_in_text :
  fst (generate_tree_text (Sample.depth_one TEXT) Sample.nested "" 0 TreeStats_new)
    = [ELBOW +:+ " level1"; SPACE +:+ ELBOW +:+ " level2"] /\
  fst (generate_tree_markdown (Sample.depth_one MARKDOWN) Sample.nested 0 TreeStats_new)
    = ["- **level1/**"; "  - **level2/**"] /\
  json_names (fst (generate_tree_json (Sample.depth_one JSON) Sample.nested 0 TreeStats_new))
    = ["tmp"; "level1"] /\
  (forall t : Node,
      json_of_node (Sample.depth_one JSON) t
      <> fst (generate_tree_json (Sample.depth_one JSON) Sample.nested 0 TreeStats_new)).
Proof.
  split; [vm_compute; reflexivity|].
  split; [vm_compute; reflexivity|].
  split; [vm_compute; reflexivity|].
  intros t H.
  set (j := fst (generate_tree_json _ _ _ _)) in H. vm_compute in j. subst j.
  destruct t as [m s [|c1 [|c2 ch]] | m r s | m s msg];
    cbn [json_of_node tree_dict List.map app] in H;
    try discriminate; try (vm_compute in H; discriminate).
  injection H as _ H.
  destruct c1 as [m1 s1 [|d1 [|d2 ch1]] | m1 r1 s1 | m1 s1 msg1];
    cbn [json_of_node tree_dict List.map app] in H;
    try discriminate; try (vm_compute in H; discriminate).
  injection H as _ H. exact (json_of_node_not_blank _ _ H).
Qed.

(** C2, the failing input.  With [max_depth = 1] and the directories
    [tmp/level1/level2/level3] of the test on [max_depth], [level2], two
    levels below the root, is rendered and counted: the depth test guards
    the listing of a directory, not the rendering of its entries. *)
Theorem max_depth_one_renders_depth_two :
  generate_tree_text (Sample.depth_one TEXT) Sample.nested "" 0 TreeStats_new
    = ([ELBOW +:+ " level1"; SPACE +:+ ELBOW +:+ " level2"],
       mkStats 2 0 0 0) /\
  generate_tree_markdown (Sample.depth_one MARKDOWN) Sample.nested 0 TreeStats_new
    = (["- **level1/**"; "  - **level2/**"], mkStats 2 0 0 0) /\
  snd (generate_tree_json (Sample.depth_one JSON) Sample.nested 0 TreeStats_new)
    = mkStats 2 0 0 0.
Proof. repeat split; vm_compute; reflexivity. Qed.

(** ** Counting the objects of the JSON tree against the statistics *)

Lemma count_objects_list (p : list (string * JValue) -> bool)
      (c : JValue) (more : list JValue) :
  List.length (List.filter p (List.flat_map json_objects (c :: more)))
  = (count_objects p c
     + List.length (List.filter p (List.flat_map json_objects more)))%nat.
Proof.
  cbn [List.flat_map]. rewrite List.filter_app, List.length_app. reflexivity.
Qed.

Lemma count_objects_tree_dict (p : list (string * JValue) -> bool)
      (d : Path) (children : list JValue) :
  count_objects p (JDict (tree_dict d children))
  = ((if p (tree_dict d children) then 1 else 0)
     + List.length (List.filter p (List.flat_map json_objects children)))%nat.
Proof.
  unfold count_objects.
  rewrite <- (app_nil_r (tree_dict d children)) at 1.
  rewrite json_objects_tree_dict by (intros kv []).
  rewrite app_nil_r. cbn [List.filter].
  destruct (p (tree_dict d children)); reflexivity.
Qed.

Lemma tree_dict_flags (d : Path) (children : list JValue) :
  has_type "directory" (tree_dict d children) = true /\
  has_type "file" (tree_dict d children) = false /\
  is_blank (tree_dict d children) = false /\
  has_error (tree_dict d children) = false.
Proof. repeat split; reflexivity. Qed.

Lemma count_objects_file_info (self : Generator) (e : Path) :
  count_objects (has_type "directory") (file_info self e) = 0%nat /\
  count_objects (has_type "file") (file_info self e) = 1%nat /\
  count_objects is_blank (file_info self e) = 0%nat /\
  count_objects has_error (file_info self e) = 0%nat.
Proof.
  unfold file_info.
  destruct (show_size (config self)); [destruct (stat e)|];
    repeat split; reflexivity.
Qed.

Lemma json_loop_counted (self : Generator) (es : list Path) :
  Forall (fun e => forall depth st,
              json_counted st (generate_tree_json self e depth st)) es ->
  forall depth st,
    let r := json_loop self depth (with_rec (generate_tree_json self) es) st in
    let sum p := List.length (List.filter p (List.flat_map json_objects (fst r))) in
    (total_dirs (snd r)
     = total_dirs st + sum (has_type "directory") + sum is_blank)%nat /\
    (total_files (snd r) = total_files st + sum (has_type "file"))%nat /\
    (errors (snd r) = errors st + sum has_error)%nat /\
    skipped (snd r) = skipped st.
Proof.
  induction 1 as [|e es He Hes IH]; intros depth st.
  - simpl. repeat split; lia.
  - change (with_rec (generate_tree_json self) (e :: es))
      with ((e, generate_tree_json self e)
              :: with_rec (generate_tree_json self) es).
    cbn [json_loop].
    destruct (is_dir e) eqn:Hd.
    + specialize (He (depth + 1) (incr_dirs st)).
      destruct (generate_tree_json self e (depth + 1) (incr_dirs st))
        as [child st2].
      specialize (IH depth st2).
      destruct (json_loop self depth (with_rec (generate_tree_json self) es) st2)
        as [more st3].
      destruct He as (H1 & H2 & H3 & H4). destruct IH as (I1 & I2 & I3 & I4).
      cbn [fst snd incr_dirs total_dirs total_files errors skipped] in *.
      rewrite !count_objects_list. repeat split; lia.
    + specialize (IH depth (incr_files st)).
      destruct (json_loop self depth (with_rec (generate_tree_json self) es)
                  (incr_files st)) as [more st3].
      destruct IH as (I1 & I2 & I3 & I4).
      destruct (count_objects_file_info self e) as (C1 & C2 & C3 & C4).
      cbn [fst snd incr_files total_dirs total_files errors skipped] in *.
      rewrite !count_objects_list, C1, C2, C3, C4. repeat split; lia.
Qed.

Lemma generate_tree_json_counted (self : Generator) (e : Path)
      (depth : Z) (st : TreeStats) :
  json_counted st (generate_tree_json self e depth st).
Proof.
  revert depth st.
  induction e as [m r s | m s x | m s l IH] using Path_ind_nested;
    intros depth st; rewrite generate_tree_json_eq;
    (destruct (depth_exceeded self depth);
     [unfold json_counted, count_objects; simpl; repeat split; lia|]);
    cbn [iterdir].
  - unfold json_counted, count_objects; simpl; repeat split; lia.
  - unfold json_counted, count_objects; simpl; repeat split; lia.
  - pose proof (json_loop_counted self _ (list_entries_Forall self _ _ IH) depth st)
      as H.
    destruct (json_loop _ _ _ _) as [children st'].
    cbn [fst snd] in H. destruct H as (H1 & H2 & H3 & H4).
    unfold json_counted. cbn [fst snd].
    rewrite !count_objects_tree_dict.
    destruct (tree_dict_flags (Dir m s (inr l)) children) as (-> & -> & -> & ->).
    repeat split; lia.
Qed.

(** ** A listing that fails changes nothing around it

    The generators are compared on a file system and on the same file
    system with every failing listing replaced by an empty one. *)

Lemma heal_name (e : Path) : name (heal e) = name e.
Proof. destruct e as [m r s | m s [x | l]]; reflexivity. Qed.

Lemma heal_is_dir (e : Path) : is_dir (heal e) = is_dir e.
Proof. destruct e as [m r s | m s [x | l]]; reflexivity. Qed.

Lemma heal_entry_info (self : Generator) (e : Path) :
  get_entry_info self (heal e) = get_entry_info self e.
Proof.
  apply get_entry_info_agree; destruct e as [m r s | m s [x | l]]; reflexivity.
Qed.

Lemma list_entries_heal (self : Generator) (l : list Path) :
  list_entries self (fun e => e) (List.map heal l)
  = List.map heal (list_entries self (fun e => e) l).
Proof.
  unfold list_entries.
  rewrite (sorted_map heal (fun e => sort_key e) (fun e => sort_key e))
    by (intros a; unfold sort_key; rewrite heal_name, heal_is_dir; reflexivity).
  rewrite (filter_map_comm heal (fun e => keep_entry self e)).
  f_equal. apply List.filter_ext. intros a.
  unfold keep_entry. rewrite heal_name, heal_is_dir. reflexivity.
Qed.

Lemma same_counts_refl (st : TreeStats) : same_counts st st.
Proof. repeat split. Qed.

Lemma same_counts_incr_dirs (a b : TreeStats) :
  same_counts a b -> same_counts (incr_dirs a) (incr_dirs b).
Proof. intros (H1 & H2 & H3). repeat split; simpl; congruence. Qed.

Lemma same_counts_incr_files (a b : TreeStats) :
  same_counts a b -> same_counts (incr_files a) (incr_files b).
Proof. intros (H1 & H2 & H3). repeat split; simpl; congruence. Qed.

Lemma same_counts_incr_errors_l (a b : TreeStats) :
  same_counts a b -> same_counts (incr_errors a) b.
Proof. intros (H1 & H2 & H3). repeat split; simpl; congruence. Qed.

Lemma same_counts_incr_errors (a b : TreeStats) :
  same_counts a b -> same_counts (incr_errors a) (incr_errors b).
Proof. intros (H1 & H2 & H3). repeat split; simpl; congruence. Qed.

Lemma text_loop_heal (self : Generator) (es : list Path) :
  Forall (fun e => forall prefix depth st1 st2, same_counts st1 st2 ->
            fst (generate_tree_text self e prefix depth st1)
            = fst (generate_tree_text self (heal e) prefix depth st2) /\
            same_counts (snd (generate_tree_text self e prefix depth st1))
                        (snd (generate_tree_text self (heal e) prefix depth st2)))
         es ->
  forall prefix depth st1 st2, same_counts st1 st2 ->
    let r1 := text_loop self prefix depth
                (with_rec (generate_tree_text self) es) st1 in
    let r2 := text_loop self prefix depth
                (with_rec (generate_tree_text self) (List.map heal es)) st2 in
    fst r1 = fst r2 /\ same_counts (snd r1) (snd r2).
Proof.
  induction 1 as [|e es He Hes IH]; intros prefix depth st1 st2 Hst.
  - simpl. auto.
  - cbn [List.map].
    change (with_rec (generate_tree_text self) (e :: es))
      with ((e, generate_tree_text self e)
              :: with_rec (generate_tree_text self) es).
    change (with_rec (generate_tree_text self) (heal e :: List.map heal es))
      with ((heal e, generate_tree_text self (heal e))
              :: with_rec (generate_tree_text self) (List.map heal es)).
    cbn [text_loop].
    rewrite heal_is_dir, heal_name, heal_entry_info.
    assert (Hlast : forall (B : Type) (x y : B),
               match with_rec (generate_tree_text self) (List.map heal es) with
               | [] => x | _ => y end
               = match with_rec (generate_tree_text self) es with
                 | [] => x | _ => y end)
      by (intros B x y; destruct es; reflexivity).
    rewrite !Hlast.
    destruct (is_dir e) eqn:Hd.
    + set (prefix' := prefix +:+ _).
      destruct (He prefix' (depth + 1) _ _ (same_counts_incr_dirs _ _ Hst))
        as [Hl Hs].
      destruct (generate_tree_text self e prefix' (depth + 1) (incr_dirs st1))
        as [sub1 st1'].
      destruct (generate_tree_text self (heal e) prefix' (depth + 1) (incr_dirs st2))
        as [sub2 st2'].
      cbn [fst snd] in Hl, Hs. subst sub2.
      destruct (IH prefix depth st1' st2' Hs) as [Hl' Hs'].
      destruct (text_loop self prefix depth _ st1') as [more1 st1''].
      destruct (text_loop self prefix depth _ st2') as [more2 st2''].
      cbn [fst snd] in *. subst more2. auto.
    + destruct (IH prefix depth _ _ (same_counts_incr_files _ _ Hst))
        as [Hl' Hs'].
      destruct (text_loop self prefix depth _ (incr_files st1)) as [more1 st1''].
      destruct (text_loop self prefix depth _ (incr_files st2)) as [more2 st2''].
      cbn [fst snd] in *. subst more2. auto.
Qed.

Lemma generate_tree_text_heal (self : Generator) (e : Path) :
  forall prefix depth st1 st2, same_counts st1 st2 ->
    fst (generate_tree_text self e prefix depth st1)
    = fst (generate_tree_text self (heal e) prefix depth st2) /\
    same_counts (snd (generate_tree_text self e prefix depth st1))
                (snd (generate_tree_text self (heal e) prefix depth st2)).
Proof.
  induction e as [m r s | m s x | m s l IH] using Path_ind_nested;
    intros prefix depth st1 st2 Hst;
    rewrite !generate_tree_text_eq;
    (destruct (depth_exceeded self depth); [auto|]);
    cbn [heal iterdir text_loop with_rec list_entries sorted fold_right
         List.filter List.map fst snd].
  - auto using same_counts_incr_errors.
  - auto using same_counts_incr_errors_l.
  - rewrite list_entries_heal.
    apply (text_loop_heal self _ (list_entries_Forall self _ _ IH)), Hst.
Qed.

Lemma markdown_loop_heal (self : Generator) (es : list Path) :
  Forall (fun e => forall depth st1 st2, same_counts st1 st2 ->
            fst (generate_tree_markdown self e depth st1)
            = fst (generate_tree_markdown self (heal e) depth st2) /\
            same_counts (snd (generate_tree_markdown self e depth st1))
                        (snd (generate_tree_markdown self (heal e) depth st2)))
         es ->
  forall depth st1 st2, same_counts st1 st2 ->
    let r1 := markdown_loop self depth
                (with_rec (generate_tree_markdown self) es) st1 in
    let r2 := markdown_loop self depth
                (with_rec (generate_tree_markdown self) (List.map heal es)) st2 in
    fst r1 = fst r2 /\ same_counts (snd r1) (snd r2).
Proof.
  induction 1 as [|e es He Hes IH]; intros depth st1 st2 Hst.
  - simpl. auto.
  - cbn [List.map].
    change (with_rec (generate_tree_markdown self) (e :: es))
      with ((e, generate_tree_markdown self e)
              :: with_rec (generate_tree_markdown self) es).
    change (with_rec (generate_tree_markdown self) (heal e :: List.map heal es))
      with ((heal e, generate_tree_markdown self (heal e))
              :: with_rec (generate_tree_markdown self) (List.map heal es)).
    cbn [markdown_loop].
    rewrite heal_is_dir, heal_name, heal_entry_info.
    destruct (is_dir e) eqn:Hd.
    + destruct (He (depth + 1) _ _ (same_counts_incr_dirs _ _ Hst)) as [Hl Hs].
      destruct (generate_tree_markdown self e (depth + 1) (incr_dirs st1))
        as [sub1 st1'].
      destruct (generate_tree_markdown self (heal e) (depth + 1) (incr_dirs st2))
        as [sub2 st2'].
      cbn [fst snd] in Hl, Hs. subst sub2.
      destruct (IH depth st1' st2' Hs) as [Hl' Hs'].
      destruct (markdown_loop self depth _ st1') as [more1 st1''].
      destruct (markdown_loop self depth _ st2') as [more2 st2''].
      cbn [fst snd] in *. subst more2. auto.
    + destruct (IH depth _ _ (same_counts_incr_files _ _ Hst)) as [Hl' Hs'].
      destruct (markdown_loop self depth _ (incr_files st1)) as [more1 st1''].
      destruct (markdown_loop self depth _ (incr_files st2)) as [more2 st2''].
      cbn [fst snd] in *. subst more2. auto.
Qed.

Lemma generate_tree_markdown_heal (self : Generator) (e : Path) :
  forall depth st1 st2, same_counts st1 st2 ->
    fst (generate_tree_markdown self e depth st1)
    = fst (generate_tree_markdown self (heal e) depth st2) /\
    same_counts (snd (generate_tree_markdown self e depth st1))
                (snd (generate_tree_markdown self (heal e) depth st2)).
Proof.
  induction e as [m r s | m s x | m s l IH] using Path_ind_nested;
    intros depth st1 st2 Hst;
    rewrite !generate_tree_markdown_eq;
    (destruct (depth_exceeded self depth); [auto|]);
    cbn [heal iterdir markdown_loop with_rec list_entries sorted fold_right
         List.filter List.map fst snd].
  - auto using same_counts_incr_errors.
  - auto using same_counts_incr_errors_l.
  - rewrite list_entries_heal.
    apply (markdown_loop_heal self _ (list_entries_Forall self _ _ IH)), Hst.
Qed.

Lemma strip_errors_file_info (self : Generator) (e : Path) :
  strip_errors (file_info self e) = file_info self e.
Proof.
  unfold file_info.
  destruct (show_size (config self)); [destruct (stat e)|]; reflexivity.
Qed.

Lemma file_info_heal (self : Generator) (e : Path) :
  file_info self (heal e) = file_info self e.
Proof. destruct e as [m r s | m s [x | l]]; reflexivity. Qed.

Lemma json_loop_heal (self : Generator) (es : list Path) :
  Forall (fun e => is_dir e = true ->
            forall depth st1 st2, same_counts st1 st2 ->
            strip_errors (fst (generate_tree_json self e depth st1))
            = fst (generate_tree_json self (heal e) depth st2) /\
            same_counts (snd (generate_tree_json self e depth st1))
                        (snd (generate_tree_json self (heal e) depth st2)))
         es ->
  forall depth st1 st2, same_counts st1 st2 ->
    let r1 := json_loop self depth
                (with_rec (generate_tree_json self) es) st1 in
    let r2 := json_loop self depth
                (with_rec (generate_tree_json self) (List.map heal es)) st2 in
    List.map strip_errors (fst r1) = fst r2 /\ same_counts (snd r1) (snd r2).
Proof.
  induction 1 as [|e es He Hes IH]; intros depth st1 st2 Hst.
  - simpl. auto.
  - cbn [List.map].
    change (with_rec (generate_tree_json self) (e :: es))
      with ((e, generate_tree_json self e)
              :: with_rec (generate_tree_json self) es).
    change (with_rec (generate_tree_json self) (heal e :: List.map heal es))
      with ((heal e, generate_tree_json self (heal e))
              :: with_rec (generate_tree_json self) (List.map heal es)).
    cbn [json_loop].
    rewrite heal_is_dir, file_info_heal.
    destruct (is_dir e) eqn:Hd.
    + destruct (He eq_refl (depth + 1) _ _ (same_counts_incr_dirs _ _ Hst))
        as [Hl Hs].
      destruct (generate_tree_json self e (depth + 1) (incr_dirs st1))
        as [sub1 st1'].
      destruct (generate_tree_json self (heal e) (depth + 1) (incr_dirs st2))
        as [sub2 st2'].
      cbn [fst snd] in Hl, Hs. subst sub2.
      destruct (IH depth st1' st2' Hs) as [Hl' Hs'].
      destruct (json_loop self depth _ st1') as [more1 st1''].
      destruct (json_loop self depth _ st2') as [more2 st2''].
      cbn [fst snd List.map] in *. subst more2. auto.
    + destruct (IH depth _ _ (same_counts_incr_files _ _ Hst)) as [Hl' Hs'].
      destruct (json_loop self depth _ (incr_files st1)) as [more1 st1''].
      destruct (json_loop self depth _ (incr_files st2)) as [more2 st2''].
      cbn [fst snd List.map] in *. subst more2.
      rewrite strip_errors_file_info. auto.
Qed.

Lemma generate_tree_json_heal (self : Generator) (e : Path) :
  is_dir e = true ->
  forall depth st1 st2, same_counts st1 st2 ->
    strip_errors (fst (generate_tree_json self e depth st1))
    = fst (generate_tree_json self (heal e) depth st2) /\
    same_counts (snd (generate_tree_json self e depth st1))
                (snd (generate_tree_json self (heal e) depth st2)).
Proof.
  induction e as [m r s | m s x | m s l IH] using Path_ind_nested;
    intros Hd depth st1 st2 Hst; [discriminate| |];
    rewrite !generate_tree_json_eq;
    (destruct (depth_exceeded self depth); [auto|]);
    cbn [heal iterdir json_loop with_rec list_entries sorted fold_right
         List.filter List.map fst snd].
  - auto using same_counts_incr_errors_l.
  - rewrite list_entries_heal.
    pose proof (json_loop_heal self _ (list_entries_Forall self _ _ IH)
                  depth st1 st2 Hst) as H.
    destruct (json_loop self depth _ st1) as [ch1 st1'].
    destruct (json_loop self depth _ st2) as [ch2 st2'].
    cbn [fst snd] in *. destruct H as [<- Hs]. auto.
Qed.

(** The three generators leave the same statistics. *)
Lemma stats_agree (self : Generator) (e : Path) (prefix : string)
      (depth : Z) (st : TreeStats) :
  snd (generate_tree_text self e prefix depth st)
  = snd (generate_tree_json self e depth st) /\
  snd (generate_tree_markdown self e depth st)
  = snd (generate_tree_json self e depth st).
Proof.
  destruct (depth_exceeded self depth) eqn:Hx.
  - rewrite generate_tree_text_eq, generate_tree_markdown_eq,
      generate_tree_json_eq, Hx. auto.
  - rewrite (text_is_walk self e prefix depth st Hx),
      (markdown_is_walk self e depth st Hx), (json_is_walk self e depth st Hx).
    auto.
Qed.

(** C3, as amended.  A directory whose listing fails, met within the depth
    limit, adds exactly one to [errors] in every format and nothing
    else; the text and Markdown generators return no line for it and do
    not keep the failure message, the JSON generator returns its object
    with no children and the message under ["error"].  The failure stays
    local: text and Markdown lines, the JSON tree apart from its
    ["error"] entries, and the directory and file counters are those of
    the same file system with every failing listing replaced by an empty
    one.  The three generators leave the same statistics, and [errors]
    has grown by the number of JSON objects that carry an ["error"]. *)
Theorem listing_failure_is_local
        (self : Generator) (directory : Path)
        (m : string) (s : option StatResult) (e : PyExc)
        (prefix : string) (depth : Z) (st : TreeStats) :
  is_dir directory = true ->
  depth_exceeded self depth = false ->
  generate_tree_text self (Dir m s (inl e)) prefix depth st
    = ([], incr_errors st) /\
  generate_tree_markdown self (Dir m s (inl e)) depth st
    = ([], incr_errors st) /\
  generate_tree_json self (Dir m s (inl e)) depth st
    = (JDict [("name", JStr m); ("type", JStr "directory");
              ("children", JList []); ("error", JStr (exc_str e))],
       incr_errors st) /\
  let t := generate_tree_text self directory prefix depth st in
  let md := generate_tree_markdown self directory depth st in
  let j := generate_tree_json self directory depth st in
  fst t = fst (generate_tree_text self (heal directory) prefix depth st) /\
  fst md = fst (generate_tree_markdown self (heal directory) depth st) /\
  strip_errors (fst j)
    = fst (generate_tree_json self (heal directory) depth st) /\
  same_counts (snd j) (snd (generate_tree_json self (heal directory) depth st)) /\
  snd t = snd j /\ snd md = snd j /\
  (errors (snd j) = errors st + count_objects has_error (fst j))%nat.
Proof.
  intros Hd Hx.
  split; [rewrite generate_tree_text_eq, Hx; reflexivity|].
  split; [rewrite generate_tree_markdown_eq, Hx; reflexivity|].
  split; [rewrite generate_tree_json_eq, Hx; reflexivity|].
  intros t md j.
  split; [apply generate_tree_text_heal, same_counts_refl|].
  split; [apply generate_tree_markdown_heal, same_counts_refl|].
  destruct (generate_tree_json_heal self directory Hd depth st st
              (same_counts_refl st)) as [Hj Hs].
  split; [exact Hj|]. split; [exact Hs|].
  destruct (stats_agree self directory prefix depth st) as [Ht Hm].
  split; [exact Ht|]. split; [exact Hm|].
  apply generate_tree_json_counted.
Qed.

Lemma listing_failure_is_local_witness :
  is_dir Sample.with_locked = true /\
  depth_exceeded (Sample.defaults JSON) 0 = false /\
  generate_tree_json (Sample.defaults JSON) (Dir "locked" None (inl Sample.denied))
                     0 TreeStats_new
  = (JDict [("name", JStr "locked"); ("type", JStr "directory");
            ("children", JList []);
            ("error", JStr "[Errno 13] Permission denied: 'locked'")],
     mkStats 0 0 0 1) /\
  fst (generate_tree_text (Sample.defaults JSON) Sample.with_locked "" 0 TreeStats_new)
  = fst (generate_tree_text (Sample.defaults JSON) (heal Sample.with_locked) ""
                            0 TreeStats_new).
Proof.
  assert (is_dir Sample.with_locked = true) as Hd by reflexivity.
  assert (depth_exceeded (Sample.defaults JSON) 0 = false) as Hx by reflexivity.
  split; [exact Hd|]. split; [exact Hx|].
  pose proof (listing_failure_is_local (Sample.defaults JSON) Sample.with_locked
                "locked" None Sample.denied "" 0 TreeStats_new Hd Hx)
    as (_ & _ & Hj & Ht & _).
  split; [exact Hj | exact Ht].
Defined.

(** C3, as stated, fails for the text and Markdown formats: a directory
    that cannot be listed is rendered exactly as an empty one, its line
    and nothing of the failure message, although the failure is
    counted. *)
Lemma text_and_markdown_drop_failure_message :
  generate_tree_text (Sample.defaults TEXT) Sample.with_locked "" 0 TreeStats_new
    = ([TEE +:+ " locked"; TEE +:+ " open"; ELBOW +:+ " z.txt"],
       mkStats 2 1 0 1) /\
  fst (generate_tree_text (Sample.defaults TEXT) Sample.with_locked "" 0 TreeStats_new)
    = fst (generate_tree_text (Sample.defaults TEXT) Sample.with_unlocked "" 0
                              TreeStats_new) /\
  generate_tree_markdown (Sample.defaults MARKDOWN) Sample.with_locked 0 TreeStats_new
    = (["- **locked/**"; "- **open/**"; "- z.txt"], mkStats 2 1 0 1) /\
  fst (generate_tree_markdown (Sample.defaults MARKDOWN) Sample.with_locked 0
                              TreeStats_new)
    = fst (generate_tree_markdown (Sample.defaults MARKDOWN) Sample.with_unlocked 0
                                  TreeStats_new).
Proof. repeat split; vm_compute; reflexivity. Qed.

(** ** JSON objects against the statistics *)

Lemma json_of_node_no_blank (self : Generator) (n : Node) :
  count_objects is_blank (json_of_node self n) = 0%nat.
Proof.
  induction n as [m s ch IH | m r s | m s msg] using Node_ind_nested.
  - cbn [json_of_node]. rewrite count_objects_tree_dict.
    destruct (tree_dict_flags (node_entry (Directory m s ch))
                (List.map (json_of_node self) ch)) as (_ & _ & -> & _).
    induction IH as [|c ch Hc Hch IHch]; [reflexivity|].
    cbn [List.map]. rewrite count_objects_list, Hc. exact IHch.
  - apply count_objects_file_info.
  - reflexivity.
Qed.

(** C7, as amended.  For every run of the JSON generator the number of
    objects of type ["file"] is what the run added to [total_files].
    The objects of type ["directory"] together with the empty objects
    that stand for directories below the depth limit are one more than
    what the run added to [total_dirs]: the root object is in the tree
    but is never counted.  Without a depth limit there is no empty
    object, so the objects of type ["directory"] alone are one more than
    what the run added. *)
Theorem json_counts_match_stats
        (self : Generator) (directory : Path) (depth : Z) (st : TreeStats) :
  let r := generate_tree_json self directory depth st in
  (total_files (snd r)
   = total_files st + count_objects (has_type "file") (fst r))%nat /\
  (total_dirs (snd r) + 1
   = total_dirs st + count_objects (has_type "directory") (fst r)
     + count_objects is_blank (fst r))%nat /\
  (max_depth (config self) = None ->
   (total_dirs (snd r) + 1
    = total_dirs st + count_objects (has_type "directory") (fst r))%nat).
Proof.
  intros r.
  destruct (generate_tree_json_counted self directory depth st)
    as (Hdirs & Hfiles & _ & _).
  split; [exact Hfiles|]. split; [exact Hdirs|].
  intros Hm.
  assert (count_objects is_blank (fst r) = 0%nat) as Hb.
  { unfold r.
    rewrite json_is_walk by (unfold depth_exceeded; rewrite Hm; reflexivity).
    cbn [fst]. rewrite (json_of_node_cut_unlimited self _ Hm).
    apply json_of_node_no_blank. }
  fold r in Hdirs. lia.
Qed.

Lemma json_counts_match_stats_witness :
  max_depth (config (Sample.defaults JSON)) = None /\
  (total_dirs (snd (generate_tree_json (Sample.defaults JSON) Sample.nested 0%Z
                                       TreeStats_new)) + 1
   = total_dirs TreeStats_new
     + count_objects (has_type "directory")
         (fst (generate_tree_json (Sample.defaults JSON) Sample.nested 0%Z
                                  TreeStats_new)))%nat.
Proof.
  assert (max_depth (config (Sample.defaults JSON)) = None) as Hm by reflexivity.
  split; [exact Hm|].
  exact (proj2 (proj2 (json_counts_match_stats (Sample.defaults JSON)
                         Sample.nested 0 TreeStats_new)) Hm).
Defined.

(** C7, as stated, fails already on an empty root directory: the JSON
    tree has one object of type ["directory"], the root itself, while
    [total_dirs] is still 0. *)
Lemma root_object_is_not_counted :
  let r := generate_tree_json (Sample.defaults JSON) (Sample.empty_dir "tmp") 0
                              TreeStats_new in
  count_objects (has_type "directory") (fst r) = 1%nat /\
  total_dirs (snd r) = 0%nat /\
  count_objects (has_type "directory") (fst r) <> total_dirs (snd r).
Proof. vm_compute. repeat split; discriminate. Qed.

(** Under a depth limit a directory below the limit is counted although
    the JSON tree holds an empty object for it. *)
Example depth_limit_leaves_a_counted_directory_blank :
  let r := generate_tree_json (Sample.depth_one JSON) Sample.nested 0
                              TreeStats_new in
  count_objects (has_type "directory") (fst r) = 2%nat /\
  count_objects is_blank (fst r) = 1%nat /\
  total_dirs (snd r) = 2%nat.
Proof. vm_compute. repeat split. Qed.

(** ** The counter that nothing touches *)

(** C10.  No operation increments [skipped]: after each of the three
    generators and after [generate_to_string], for every directory tree
    and configuration, it has the value it had before, so from a fresh
    [TreeStats] it stays 0, whatever was filtered out. *)
Theorem skipped_is_never_incremented
        (self : Generator) (json_dumps : JValue -> string)
        (html_head html_body html_tree html_tail : list string)
        (lookup : string -> option Path)
        (directory : Path) (path : string) (prefix : string) (depth : Z)
        (st : TreeStats) :
  skipped (snd (generate_tree_text self directory prefix depth st)) = skipped st /\
  skipped (snd (generate_tree_markdown self directory depth st)) = skipped st /\
  skipped (snd (generate_tree_json self directory depth st)) = skipped st /\
  skipped (snd (generate_to_string self json_dumps html_head html_body html_tree html_tail
                                   lookup path st)) = skipped st /\
  skipped TreeStats_new = 0%nat.
Proof.
  assert (Hj : forall d k, skipped (snd (generate_tree_json self d k st)) = skipped st)
    by (intros d k; apply generate_tree_json_counted).
  assert (Ht : forall d p k, skipped (snd (generate_tree_text self d p k st)) = skipped st)
    by (intros d p k; rewrite (proj1 (stats_agree self d p k st)); apply Hj).
  assert (Hm : forall d k, skipped (snd (generate_tree_markdown self d k st)) = skipped st)
    by (intros d k; rewrite (proj2 (stats_agree self d "" k st)); apply Hj).
  split; [apply Ht|]. split; [apply Hm|]. split; [apply Hj|].
  split; [|reflexivity].
  unfold generate_to_string.
  destruct (lookup path) as [dir_path|]; [|reflexivity].
  destruct (is_dir dir_path); [|reflexivity]. cbn [negb].
  destruct (output_format self).
  - specialize (Ht dir_path "" 0).
    destruct (generate_tree_text self dir_path "" 0 st). exact Ht.
  - specialize (Hm dir_path 0).
    destruct (generate_tree_markdown self dir_path 0 st). exact Hm.
  - reflexivity.
  - specialize (Hj dir_path 0).
    destruct (generate_tree_json self dir_path 0 st). exact Hj.
Qed.

(** ** [generate_to_string] *)

(** What [generate_to_string] does outside the HTML branch: a missing
    root and a root that is no directory raise before any generator runs,
    the statistics untouched, and the text, Markdown and JSON formats
    return a string. *)
Lemma generate_to_string_validates
      (self : Generator) (json_dumps : JValue -> string)
      (html_head html_body html_tree html_tail : list string)
      (lookup : string -> option Path) (path : string) (st : TreeStats) :
  let r := generate_to_string self json_dumps html_head html_body html_tree html_tail
                              lookup path st in
  (lookup path = None ->
   r = (inl (FileNotFoundError ("Directory not found: " +:+ path)), st)) /\
  (forall p, lookup path = Some p -> is_dir p = false ->
   r = (inl (NotADirectoryError ("Not a directory: " +:+ path)), st)) /\
  (forall p, lookup path = Some p -> is_dir p = true ->
   output_format self <> HTML -> exists text, fst r = inr text).
Proof.
  intros r. unfold r, generate_to_string. repeat split.
  - intros ->. reflexivity.
  - intros p -> ->. reflexivity.
  - intros p -> -> Hf. cbn [negb].
    destruct (output_format self); [| |contradiction|].
    + destruct (generate_tree_text self p "" 0 st). eexists. reflexivity.
    + destruct (generate_tree_markdown self p 0 st). eexists. reflexivity.
    + destruct (generate_tree_json self p 0 st). eexists. reflexivity.
Qed.

(** C8, the failing input.  For the HTML format and any root that exists
    and is a directory, [generate_to_string] calls [generate_tree_html]
    with the directory alone; the parameter [tree_data] has no default,
    so the call raises [TypeError] and no string is returned. *)
Theorem generate_to_string_html_raises
        (self : Generator) (json_dumps : JValue -> string)
        (html_head html_body html_tree html_tail : list string)
        (lookup : string -> option Path) (path : string) (dir_path : Path)
        (st : TreeStats) :
  lookup path = Some dir_path ->
  is_dir dir_path = true ->
  output_format self = HTML ->
  generate_to_string self json_dumps html_head html_body html_tree html_tail lookup path st
  = (inl (TypeError missing_tree_data), st).
Proof.
  intros Hl Hd Hf. unfold generate_to_string. rewrite Hl, Hd, Hf. reflexivity.
Qed.

Lemma generate_to_string_html_raises_witness :
  generate_to_string (Sample.defaults HTML) Sample.no_dumps [] [] [] []
                     (Sample.only (Sample.empty_dir "tmp")) "tmp" TreeStats_new
  = (inl (TypeError missing_tree_data), TreeStats_new).
Proof.
  apply (generate_to_string_html_raises (Sample.defaults HTML) Sample.no_dumps
           [] [] [] [] (Sample.only (Sample.empty_dir "tmp")) "tmp"
           (Sample.empty_dir "tmp") TreeStats_new);
    reflexivity.
Defined.

(** ** No ignored name below the root *)

Lemma node_names_unfold (n : Node) :
  node_names n = node_name n :: List.flat_map node_names (node_children n).
Proof. destruct n; reflexivity. Qed.

Lemma walk_loop_names (self : Generator) (es : list Path) :
  Forall (fun e => keep_entry self e = true /\
                   forall depth st,
                     Forall (fun x => should_ignore self x = false)
                       (List.flat_map node_names
                          (node_children (fst (walk self e depth st))))) es ->
  forall depth st,
    Forall (fun x => should_ignore self x = false)
      (List.flat_map node_names
         (fst (walk_loop self depth (with_rec (walk self) es) st))).
Proof.
  induction 1 as [|e es [Hk He] Hes IH]; intros depth st; [constructor|].
  change (with_rec (walk self) (e :: es))
    with ((e, walk self e) :: with_rec (walk self) es).
  cbn [walk_loop].
  assert (Hname : should_ignore self (name e) = false).
  { unfold keep_entry in Hk. apply andb_true_iff in Hk as [Hk _].
    apply negb_true_iff in Hk. exact Hk. }
  destruct (is_dir e) eqn:Hd.
  - destruct (depth_exceeded self (depth + 1)).
    + specialize (IH depth (incr_dirs st)).
      destruct (walk_loop self depth _ (incr_dirs st)) as [more st3].
      cbn [fst List.flat_map node_names app]. constructor; assumption.
    + pose proof (walk_node self e (depth + 1) (incr_dirs st) Hd) as (_ & Hn & _).
      specialize (He (depth + 1) (incr_dirs st)).
      destruct (walk self e (depth + 1) (incr_dirs st)) as [n st2].
      specialize (IH depth st2).
      destruct (walk_loop self depth _ st2) as [more st3].
      cbn [fst List.flat_map] in *. rewrite node_names_unfold, Hn.
      cbn [app]. constructor; [exact Hname|].
      apply Forall_app. split; assumption.
  - specialize (IH depth (incr_files st)).
    destruct (walk_loop self depth _ (incr_files st)) as [more st3].
    cbn [fst List.flat_map node_names node_name app]. constructor; assumption.
Qed.

Lemma walk_names (self : Generator) (e : Path) (depth : Z) (st : TreeStats) :
  Forall (fun x => should_ignore self x = false)
    (List.flat_map node_names (node_children (fst (walk self e depth st)))).
Proof.
  revert depth st.
  induction e as [m r s | m s x | m s l IH] using Path_ind_nested;
    intros depth st; rewrite walk_eq; cbn [iterdir fst node_children List.flat_map];
    try constructor.
  assert (H : Forall (fun e => keep_entry self e = true /\
                        forall depth st,
                          Forall (fun x => should_ignore self x = false)
                            (List.flat_map node_names
                               (node_children (fst (walk self e depth st)))))
                (list_entries self (fun e => e) l)).
  { apply List.Forall_forall. intros e He.
    apply list_entries_In in He as [Hin Hk]. split; [exact Hk|].
    rewrite List.Forall_forall in IH. apply IH, Hin. }
  pose proof (walk_loop_names self _ H depth st) as Hw.
  destruct (walk_loop self depth _ st) as [ch st']. exact Hw.
Qed.

(** The names a cut JSON tree shows are names of the tree it was cut from. *)
Lemma json_names_cut (self : Generator) (n : Node) (depth : Z) :
  json_names (json_of_node_cut self depth n)
  = if node_is_dir n && depth_exceeded self depth then []
    else node_name n
           :: List.flat_map
                (fun c => json_names (json_of_node_cut self (depth + 1) c))
                (node_children n).
Proof.
  destruct n as [m s ch | m r s | m s msg];
    cbn [json_of_node_cut node_is_dir node_name node_children andb List.flat_map].
  - destruct (depth_exceeded self depth); [reflexivity|].
    unfold json_names.
    rewrite <- (app_nil_r (tree_dict _ _)).
    rewrite json_objects_tree_dict by (intros kv []).
    rewrite app_nil_r. cbn [List.flat_map].
    cbn [tree_dict dict_get node_entry name]. simpl.
    f_equal. rewrite flat_map_flat_map, flat_map_of_map. reflexivity.
  - destruct (json_objects_file_info self (node_entry (FileNode m r s)))
      as (items & -> & Ho & Hn & _).
    unfold json_names. rewrite Ho. simpl. rewrite Hn. reflexivity.
  - destruct (depth_exceeded self depth); reflexivity.
Qed.

Lemma json_names_cut_In (self : Generator) (n : Node) :
  forall depth x,
    In x (json_names (json_of_node_cut self depth n)) -> In x (node_names n).
Proof.
  induction n as [m s ch IH | m r s | m s msg] using Node_ind_nested;
    intros depth x; rewrite json_names_cut, node_names_unfold;
    cbn [node_is_dir node_name node_children andb List.flat_map].
  - destruct (depth_exceeded self depth); [intros []|].
    intros [-> | Hin]; [left; reflexivity | right].
    apply in_flat_map in Hin as (c & Hc & Hx).
    apply in_flat_map. exists c. split; [exact Hc|].
    rewrite List.Forall_forall in IH. exact (IH c Hc _ _ Hx).
  - auto.
  - destruct (depth_exceeded self depth); [intros [] | auto].
Qed.

(** C9, as amended.  For every configuration, every entry rendered below
    the root has a name that [should_ignore] rejects: the text and
    Markdown lines are the renderings of the children of the [walk]
    tree, whose names are all kept, and every named JSON object other
    than the root object carries such a name.  The root's own name is
    rendered without being tested (see the lemma that follows). *)
Theorem no_ignored_name_below_root
        (self : Generator) (directory : Path) (prefix : string) (depth : Z)
        (st : TreeStats) :
  depth_exceeded self depth = false ->
  let node := fst (walk self directory depth st) in
  fst (generate_tree_text self directory prefix depth st)
    = render_text self prefix (node_children node) /\
  fst (generate_tree_markdown self directory depth st)
    = render_markdown self depth (node_children node) /\
  Forall (fun x => should_ignore self x = false)
    (List.flat_map node_names (node_children node)) /\
  (forall x,
      In x (List.tl (json_names (fst (generate_tree_json self directory depth st)))) ->
      should_ignore self x = false).
Proof.
  intros Hx node.
  split; [rewrite (text_is_walk self directory prefix depth st Hx); reflexivity|].
  split; [rewrite (markdown_is_walk self directory depth st Hx); reflexivity|].
  pose proof (walk_names self directory depth st) as Hn. fold node in Hn.
  split; [exact Hn|].
  intros x. rewrite (json_is_walk self directory depth st Hx). cbn [fst].
  fold node. rewrite json_names_cut, Hx, andb_false_r. cbn [List.tl].
  intros Hin. apply in_flat_map in Hin as (c & Hc & Hin).
  apply json_names_cut_In in Hin.
  rewrite List.Forall_forall in Hn. apply Hn.
  apply in_flat_map. exists c. split; assumption.
Qed.

Lemma no_ignored_name_below_root_witness :
  depth_exceeded (Sample.defaults JSON) 0 = false /\
  forall x,
    In x (List.tl (json_names
            (fst (generate_tree_json (Sample.defaults JSON) Sample.with_locked 0
                                     TreeStats_new)))) ->
    should_ignore (Sample.defaults JSON) x = false.
Proof.
  assert (depth_exceeded (Sample.defaults JSON) 0 = false) as Hx by reflexivity.
  split; [exact Hx|].
  exact (proj2 (proj2 (proj2
           (no_ignored_name_below_root (Sample.defaults JSON) Sample.with_locked
              "" 0 TreeStats_new Hx)))).
Defined.

(** C9, as stated, fails for the root directory: a root named
    [node_modules] is ignored by [should_ignore], and its name is the
    first line of the text, the title of the Markdown and the ["name"] of
    the JSON root object. *)
Lemma root_name_is_rendered_unchecked :
  should_ignore (Sample.defaults TEXT) "node_modules" = true /\
  fst (generate_to_string (Sample.defaults TEXT) Sample.no_dumps [] [] [] []
         (Sample.only Sample.ignored_root) "node_modules" TreeStats_new)
    = inr "node_modules" /\
  fst (generate_to_string (Sample.defaults MARKDOWN) Sample.no_dumps [] [] [] []
         (Sample.only Sample.ignored_root) "node_modules" TreeStats_new)
    = inr ("# node_modules" +:+ newline) /\
  fst (generate_tree_json (Sample.defaults JSON) Sample.ignored_root 0 TreeStats_new)
    = JDict [("name", JStr "node_modules"); ("type", JStr "directory");
             ("children", JList [])].
Proof. repeat split; vm_compute; reflexivity. Qed.

(** ** Sibling order *)







Section InsertionSort.
Context {A : Type} (key : A -> bool * string).






End InsertionSort.













(** ** The cases of the test suite *)

Example test_default_ignore_patterns :
  "__pycache__" ∈ ignore_patterns (Sample.defaults TEXT) /\
  ".git" ∈ ignore_patterns (Sample.defaults TEXT) /\
  "node_modules" ∈ ignore_patterns (Sample.defaults TEXT) /\
  ".DS_Store" ∈ ignore_patterns (Sample.defaults TEXT).
Proof. repeat split; apply (bool_decide_unpack _); vm_compute; exact I. Qed.

Example test_should_ignore_hidden_files :
  should_ignore (Sample.defaults TEXT) ".hidden_file" = true /\
  should_ignore (Sample.defaults TEXT) "normal_file" = false.
Proof. split; vm_compute; reflexivity. Qed.

Example test_should_ignore_show_hidden :
  let g := Generator_init (mkConfig None true false false false ∅) TEXT in
  should_ignore g ".random_hidden" = false /\ should_ignore g ".git" = true.
Proof. split; vm_compute; reflexivity. Qed.

Example test_should_ignore_patterns :
  let g := Generator_init (Sample.config_with None {[ "test_*"; "temp" ]}) TEXT in
  should_ignore g "test_file.py" = true /\ should_ignore g "temp" = true /\
  should_ignore g "normal.py" = false.
Proof. repeat split; vm_compute; reflexivity. Qed.

Example test_should_ignore_wildcard :
  let g := Generator_init (Sample.config_with None {[ "*.pyc"; "*.log" ]}) TEXT in
  should_ignore g "file.pyc" = true /\ should_ignore g "debug.log" = true /\
  should_ignore g "file.py" = false.
Proof. repeat split; vm_compute; reflexivity. Qed.

Example test_format_size :
  _format_size 100 = "(100.0B)" /\ _format_size 1024 = "(1.0KB)" /\
  _format_size (1024 * 1024) = "(1.0MB)" /\
  _format_size (1024 * 1024 * 1024) = "(1.0GB)".
Proof. repeat split; vm_compute; reflexivity. Qed.

Example test_format_size_ties_to_even : _format_size 1280 = "(1.2KB)".
Proof. vm_compute. reflexivity. Qed.

Example test_generate_tree_text_with_files :
  generate_tree_text (Sample.defaults TEXT)
    (Dir "tmp" None (inr [Sample.plain_file "file2.txt"; Sample.plain_file "file1.txt"]))
    "" 0 TreeStats_new
  = ([TEE +:+ " file1.txt"; ELBOW +:+ " file2.txt"], mkStats 0 2 0 0).
Proof. vm_compute. reflexivity. Qed.

Example test_generate_tree_dirs_only :
  fst (generate_tree_text
         (Generator_init (mkConfig None false true false false ∅) TEXT)
         (Dir "tmp" None (inr [Sample.plain_file "file.txt"; Sample.empty_dir "subdir"]))
         "" 0 TreeStats_new)
  = [ELBOW +:+ " subdir"].
Proof. vm_compute. reflexivity. Qed.

Example test_invalid_directory :
  generate_to_string (Sample.defaults TEXT) Sample.no_dumps [] [] [] []
                     Sample.nothing "/nonexistent/directory" TreeStats_new
  = (inl (FileNotFoundError "Directory not found: /nonexistent/directory"),
     TreeStats_new).
Proof. reflexivity. Qed.

(** The call of the HTML test, [generate_tree_html(Path(tmpdir))], binds
    no [tree_data] either. *)
Example test_generate_html_call :
  exists e,
    call_generate_tree_html Sample.no_dumps [] [] [] []
      (Sample.empty_dir "tmp") None None = inl (TypeError e).
Proof. eexists. reflexivity. Qed.

(** ... while the call of [generate_to_file], which passes the JSON tree,
    yields the page. *)
Example generate_to_file_html_call :
  call_generate_tree_html (fun _ => "{}") ["<html>"] ["<body>"] ["<script>"]
    ["</html>"] (Sample.empty_dir "tmp") (Some (JDict [])) None
  = inr ["<html>"; "  <title>Directory Tree - tmp</title>"; "<body>";
         html_heading (Sample.empty_dir "tmp"); "<script>";
         "    const treeData = {};"; "</html>"].
Proof. vm_compute. reflexivity. Qed.

(** * Further properties of the module *)

(** ** The ignore filter under a change of configuration *)

(** Showing fewer hidden entries or adding ignore patterns never brings
    back an entry that was ignored. *)
Theorem should_ignore_monotone
        (cfg cfg' : TreeConfig) (fmt fmt' : OutputFormat) (entry : string) :
  cfg_ignore_patterns cfg ⊆ cfg_ignore_patterns cfg' ->
  (show_hidden cfg' = true -> show_hidden cfg = true) ->
  should_ignore (Generator_init cfg fmt) entry = true ->
  should_ignore (Generator_init cfg' fmt') entry = true.
Proof.
  intros Hsub Hhid. rewrite !should_ignore_iff. cbn [config ignore_patterns Generator_init].
  intros [[Hh Hdot] | [Hin | [p [Hp Hw]]]].
  - left. split; [|exact Hdot].
    destruct (show_hidden cfg'); [|reflexivity].
    rewrite Hhid in Hh by reflexivity. discriminate.
  - right; left. apply elem_of_union in Hin as [Hin | Hin].
    + apply elem_of_union_l, Hin.
    + apply elem_of_union_r, Hsub, Hin.
  - right; right. exists p. split; [|exact Hw].
    apply elem_of_union in Hp as [Hp | Hp].
    + apply elem_of_union_l, Hp.
    + apply elem_of_union_r, Hsub, Hp.
Qed.

Lemma should_ignore_monotone_witness :
  should_ignore
    (Generator_init (Sample.config_with None {[ "*.pyc"; "*.log" ]}) JSON)
    "debug.log" = true.
Proof.
  apply (should_ignore_monotone (Sample.config_with None {[ "*.log" ]})
           (Sample.config_with None {[ "*.pyc"; "*.log" ]}) TEXT JSON "debug.log").
  - cbn [cfg_ignore_patterns Sample.config_with].
    intros x Hx. apply elem_of_union_r, Hx.
  - intros H. exact H.
  - vm_compute. reflexivity.
Defined.

(** A pattern that neither begins nor ends with a star, such as [a*b], is
    no wildcard at all: adding it ignores the entry of exactly that name
    and changes nothing else. *)
Theorem pattern_without_outer_star_is_literal
        (cfg : TreeConfig) (fmt : OutputFormat) (p entry : string) :
  PyStr.startswith p "*" = false ->
  PyStr.endswith p "*" = false ->
  (should_ignore (Generator_init (add_pattern p cfg) fmt) entry = true <->
   entry = p \/ should_ignore (Generator_init cfg fmt) entry = true).
Proof.
  intros Hs He.
  assert (Hw : wildcard_hit entry p = false).
  { destruct (wildcard_hit entry p) eqn:E; [|reflexivity].
    apply wildcard_hit_iff in E as [[suffix [-> _]] | [_ [prefix [-> _]]]].
    - rewrite startswith_app in Hs. discriminate.
    - assert (PyStr.endswith (prefix +:+ "*") "*" = true) as H
        by (apply endswith_iff; eauto).
      congruence. }
  rewrite !should_ignore_iff.
  cbn [config ignore_patterns Generator_init add_pattern show_hidden
       cfg_ignore_patterns].
  rewrite !elem_of_union, elem_of_singleton.
  split.
  - intros [H | [Hin | [q [Hq Hh]]]].
    + right. left. exact H.
    + destruct Hin as [Hin | [Hin | Hin]]; auto.
    + rewrite !elem_of_union, elem_of_singleton in Hq.
      destruct Hq as [Hq | [Hq | Hq]].
      * right. right. right. exists q. rewrite elem_of_union. auto.
      * subst q. congruence.
      * right. right. right. exists q. rewrite elem_of_union. auto.
  - intros [-> | [H | [Hin | [q [Hq Hh]]]]].
    + right. left. auto.
    + left. exact H.
    + right. left. tauto.
    + right. right. exists q. split; [|exact Hh].
      rewrite elem_of_union in Hq. rewrite !elem_of_union. tauto.
Qed.

Lemma pattern_without_outer_star_is_literal_witness :
  should_ignore (Generator_init (add_pattern "a*b" TreeConfig_new) TEXT) "axb" = true
  <-> "axb" = "a*b" \/ should_ignore (Generator_init TreeConfig_new TEXT) "axb" = true.
Proof.
  apply (pattern_without_outer_star_is_literal TreeConfig_new TEXT "a*b" "axb");
    reflexivity.
Defined.

(** ** Sizes below one kilobyte *)

Lemma string_app_assoc (a b c : string) : (a +:+ b) +:+ c = a +:+ (b +:+ c).
Proof.
  induction a as [|x a IH]; [reflexivity|].
  rewrite !append_cons, IH. reflexivity.
Qed.

Lemma round_half_even_inject_Z (z : Z) : round_half_even (inject_Z z * 10) = z * 10.
Proof.
  unfold round_half_even. cbn [Qnum Qden inject_Z Qmult Pos.mul].
  rewrite Z.div_1_r, Z.mod_1_r. reflexivity.
Qed.

(** A byte count below 1024 is printed as it is, with [.0] and the unit
    [B]. *)
Theorem format_size_small_is_exact (size : Z) :
  0 <= size < 1024 ->
  _format_size size = "(" +:+ digits_of_Z size +:+ ".0B)".
Proof.
  intros [Hlo Hhi]. unfold _format_size, format_size_units.
  rewrite float_of_int_small
    by (change (2 ^ 53) with 9007199254740992; lia).
  cbn [format_size_loop].
  assert (Qltb (inject_Z size) 1024 = true) as ->
    by (apply Qltb_true; change 1024%Q with (inject_Z 1024);
        rewrite <- Zlt_Qlt; exact Hhi).
  unfold format_1f.
  assert (Qltb (inject_Z size) 0 = false) as ->
    by (apply Qltb_false; change 0%Q with (inject_Z 0);
        rewrite <- Zle_Qle; exact Hlo).
  rewrite round_half_even_inject_Z, Z.abs_eq by lia.
  rewrite Z.div_mul, Z.mod_mul by lia.
  rewrite append_nil, !string_app_assoc. reflexivity.
Qed.

Lemma format_size_small_is_exact_witness :
  _format_size 1023 = "(" +:+ digits_of_Z 1023 +:+ ".0B)".
Proof. apply (format_size_small_is_exact 1023). lia. Defined.

(** ** Escaping the data embedded in the HTML page *)




Lemma replace_without_occurrence (s : string) :
  occurs "</script>" s = false -> replace s "</script>" "<\/script>" = s.
Proof.
  unfold replace. induction s as [|c s IH]; intros H; [reflexivity|].
  cbn [occurs] in H. apply orb_false_iff in H as [Hp Ho].
  cbn [replace_from]. rewrite Hp, (IH Ho). reflexivity.
Qed.





(** A tree whose serialisation is a closing script tag and nothing
    else. *)
Example html_data_escapes_the_script_tag :
  generate_tree_html (fun _ => "</script>") ["<html>"] ["<body>"] ["<script>"]
                     ["</html>"] (Sample.empty_dir "tmp") (JDict []) 0
  = ["<html>"; "  <title>Directory Tree - tmp</title>"; "<body>";
     html_heading (Sample.empty_dir "tmp"); "<script>";
     "    const treeData = <\/script>;"; "</html>"].
Proof. vm_compute. reflexivity. Qed.

(** Serialised data that holds no closing script tag is embedded as it
    is. *)
Theorem html_data_without_script_tag_is_verbatim
        (json_dumps : JValue -> string)
        (html_head html_body html_tree html_tail : list string)
        (directory : Path) (tree_data : JValue) :
  occurs "</script>" (json_dumps tree_data) = false ->
  generate_tree_html json_dumps html_head html_body html_tree html_tail
                     directory tree_data 0
  = (html_head
     ++ ["  <title>Directory Tree - " +:+ name directory +:+ "</title>"]
     ++ html_body
     ++ [html_heading directory]
     ++ html_tree
     ++ ["    const treeData = " +:+ json_dumps tree_data +:+ ";"]
     ++ html_tail)%list.
Proof.
  intros H. unfold generate_tree_html. cbn [Z.eqb].
  rewrite (replace_without_occurrence _ H). reflexivity.
Qed.

Lemma html_data_without_script_tag_is_verbatim_witness :
  generate_tree_html (fun _ => "{}") ["<html>"] ["<body>"] ["<script>"]
                     ["</html>"] (Sample.empty_dir "tmp") (JDict []) 0
  = ["<html>"; "  <title>Directory Tree - tmp</title>"; "<body>";
     html_heading (Sample.empty_dir "tmp"); "<script>";
     "    const treeData = {};"; "</html>"].
Proof.
  apply (html_data_without_script_tag_is_verbatim (fun _ => "{}") ["<html>"]
           ["<body>"] ["<script>"] ["</html>"] (Sample.empty_dir "tmp")
           (JDict [])).
  reflexivity.
Defined.

(** ** The permission annotation *)

Lemma oct_digits_extends (fuel : nat) (n : N) (acc : string) :
  exists pre, oct_digits fuel n acc = pre +:+ acc.
Proof.
  revert n acc. induction fuel as [|fuel IH]; intros n acc; cbn [oct_digits].
  - exists "". reflexivity.
  - destruct (n <? 8)%N.
    + exists (String (oct_digit n) ""). reflexivity.
    + destruct (IH (n / 8)%N (String (oct_digit (n mod 8)%N) acc)) as [pre ->].
      exists (pre +:+ String (oct_digit (n mod 8)%N) "").
      rewrite string_app_assoc. reflexivity.
Qed.

Lemma oct_ends_with_low_digits (n : N) :
  (64 <= n)%N ->
  exists pre,
    oct n = pre +:+ String (oct_digit ((n / 64) mod 8)%N)
                       (String (oct_digit ((n / 8) mod 8)%N)
                          (String (oct_digit (n mod 8)%N) "")).
Proof.
  intros Hn. unfold oct.
  assert (6 <= N.log2 n)%N as Hlog
    by (change 6%N with (N.log2 64); apply N.log2_le_mono, Hn).
  destruct (N.to_nat (N.log2 n)) as [|[|f]] eqn:Ef; [lia | lia |].
  cbn [oct_digits].
  assert ((n <? 8)%N = false) as -> by (apply N.ltb_ge; lia).
  assert ((n / 8 <? 8)%N = false) as ->.
  { apply N.ltb_ge. change 8%N with (64 / 8)%N at 1.
    apply N.Div0.div_le_mono. exact Hn. }
  rewrite N.Div0.div_div. change (8 * 8)%N with 64%N.
  destruct (n / 64 <? 8)%N eqn:E.
  - apply N.ltb_lt in E. rewrite (N.mod_small (n / 64) 8) by exact E.
    exists "0o". reflexivity.
  - destruct (oct_digits_extends f (n / 64 / 8)%N
                (String (oct_digit ((n / 64) mod 8)%N)
                   (String (oct_digit ((n / 8) mod 8)%N)
                      (String (oct_digit (n mod 8)%N) "")))) as [pre ->].
    exists ("0o" +:+ pre). rewrite string_app_assoc. reflexivity.
Qed.

(** With [show_permissions], an entry whose [stat()] succeeds with a mode
    of at least [0o100] is annotated with the three lowest octal digits
    of the mode in brackets, after the size when a size is shown. *)
Theorem permissions_are_the_low_octal_digits
        (self : Generator) (path : Path) (s : StatResult) :
  show_permissions (config self) = true ->
  stat path = Some s ->
  (64 <= st_mode s)%N ->
  let digits := String (oct_digit ((st_mode s / 64) mod 8)%N)
                  (String (oct_digit ((st_mode s / 8) mod 8)%N)
                     (String (oct_digit (st_mode s mod 8)%N) "")) in
  get_entry_info self path
  = if show_size (config self) && is_file path
    then " " +:+ _format_size (Z.of_N (st_size s)) +:+ " [" +:+ digits +:+ "]"
    else " [" +:+ digits +:+ "]".
Proof.
  intros Hp Hs Hm digits. unfold get_entry_info. rewrite Hp, Hs.
  assert (last3 (oct (st_mode s)) = digits) as ->.
  { destruct (oct_ends_with_low_digits _ Hm) as [pre ->]. fold digits.
    unfold last3. rewrite string_length_app.
    replace (String.length pre + String.length digits - 3)%nat
      with (String.length pre) by (cbn [digits String.length]; lia).
    apply (substring_after pre digits). }
  destruct (show_size (config self) && is_file path).
  - cbn [app PyStr.join String.concat]. rewrite ?string_app_assoc. reflexivity.
  - cbn [app PyStr.join String.concat]. rewrite ?string_app_assoc. reflexivity.
Qed.

Lemma permissions_are_the_low_octal_digits_witness :
  get_entry_info
    (Generator_init (mkConfig None false false false true ∅) TEXT)
    (File "a.txt" true (Some (mkStat 9%N 33188%N)))
  = " [644]".
Proof.
  apply (permissions_are_the_low_octal_digits
           (Generator_init (mkConfig None false false false true ∅) TEXT)
           (File "a.txt" true (Some (mkStat 9%N 33188%N)))
           (mkStat 9%N 33188%N));
    [reflexivity | reflexivity | vm_compute; discriminate].
Defined.

(** ** What the loops run over *)






(** ** Statistics accumulate *)

Ltac solve_stats :=
  repeat match goal with s : TreeStats |- _ => destruct s end;
  unfold stats_add, incr_dirs, incr_files, incr_errors, TreeStats_new;
  cbn [total_dirs total_files skipped errors];
  f_equal; lia.

Lemma stats_add_new (st : TreeStats) : stats_add st TreeStats_new = st.
Proof. solve_stats. Qed.

Lemma walk_loop_from_new (self : Generator) (es : list Path) :
  Forall (fun e => forall depth st,
            walk self e depth st
            = (fst (walk self e depth TreeStats_new),
               stats_add st (snd (walk self e depth TreeStats_new)))) es ->
  forall depth st,
    walk_loop self depth (with_rec (walk self) es) st
    = (fst (walk_loop self depth (with_rec (walk self) es) TreeStats_new),
       stats_add st
         (snd (walk_loop self depth (with_rec (walk self) es) TreeStats_new))).
Proof.
  induction 1 as [|e es He Hes IH]; intros depth st.
  - cbn [with_rec List.map walk_loop fst snd]. rewrite stats_add_new. reflexivity.
  - change (with_rec (walk self) (e :: es))
      with ((e, walk self e) :: with_rec (walk self) es).
    cbn [walk_loop].
    destruct (is_dir e).
    + destruct (depth_exceeded self (depth + 1)).
      * rewrite (IH depth (incr_dirs st)), (IH depth (incr_dirs TreeStats_new)).
        destruct (walk_loop self depth _ TreeStats_new) as [more d].
        cbn [fst snd]. f_equal. solve_stats.
      * rewrite (He (depth + 1) (incr_dirs st)),
          (He (depth + 1) (incr_dirs TreeStats_new)).
        destruct (walk self e (depth + 1) TreeStats_new) as [n d1].
        cbn [fst snd].
        rewrite (IH depth (stats_add (incr_dirs st) d1)),
          (IH depth (stats_add (incr_dirs TreeStats_new) d1)).
        destruct (walk_loop self depth _ TreeStats_new) as [more d2].
        cbn [fst snd]. f_equal. solve_stats.
    + rewrite (IH depth (incr_files st)), (IH depth (incr_files TreeStats_new)).
      destruct (walk_loop self depth _ TreeStats_new) as [more d].
      cbn [fst snd]. f_equal. solve_stats.
Qed.

Lemma walk_from_new (self : Generator) (e : Path) (depth : Z) (st : TreeStats) :
  walk self e depth st
  = (fst (walk self e depth TreeStats_new),
     stats_add st (snd (walk self e depth TreeStats_new))).
Proof.
  revert depth st.
  induction e as [m r s | m s x | m s l IH] using Path_ind_nested;
    intros depth st; rewrite !walk_eq; cbn [iterdir fst snd].
  - f_equal. solve_stats.
  - f_equal. solve_stats.
  - rewrite (walk_loop_from_new self _ (list_entries_Forall self _ _ IH) depth st).
    destruct (walk_loop self depth _ TreeStats_new) as [ch d]. reflexivity.
Qed.

(** The output of a generator does not depend on the statistics it finds,
    and what a run adds to each counter does not depend on them either:
    the counters are never reset, so a generator object used for several
    runs reports the sum of all of them. *)
Theorem statistics_accumulate
        (self : Generator) (directory : Path) (prefix : string) (depth : Z)
        (st : TreeStats) :
  generate_tree_text self directory prefix depth st
  = (fst (generate_tree_text self directory prefix depth TreeStats_new),
     stats_add st (snd (generate_tree_text self directory prefix depth TreeStats_new))) /\
  generate_tree_markdown self directory depth st
  = (fst (generate_tree_markdown self directory depth TreeStats_new),
     stats_add st (snd (generate_tree_markdown self directory depth TreeStats_new))) /\
  generate_tree_json self directory depth st
  = (fst (generate_tree_json self directory depth TreeStats_new),
     stats_add st (snd (generate_tree_json self directory depth TreeStats_new))).
Proof.
  destruct (depth_exceeded self depth) eqn:Hx.
  - rewrite !generate_tree_text_eq, !generate_tree_markdown_eq,
      !generate_tree_json_eq, Hx. cbn [fst snd].
    rewrite stats_add_new. auto.
  - rewrite (text_is_walk self directory prefix depth st Hx),
      (text_is_walk self directory prefix depth TreeStats_new Hx),
      (markdown_is_walk self directory depth st Hx),
      (markdown_is_walk self directory depth TreeStats_new Hx),
      (json_is_walk self directory depth st Hx),
      (json_is_walk self directory depth TreeStats_new Hx).
    cbn [fst snd]. rewrite (walk_from_new self directory depth st).
    cbn [fst snd]. auto.
Qed.

(** ** Directories only *)

Lemma walk_loop_dirs_only (self : Generator) (es : list Path) :
  Forall (fun e => is_dir e = true /\
                   forall depth st,
                     total_files (snd (walk self e depth st)) = total_files st) es ->
  forall depth st,
    total_files (snd (walk_loop self depth (with_rec (walk self) es) st))
    = total_files st.
Proof.
  induction 1 as [|e es [Hd He] Hes IH]; intros depth st; [reflexivity|].
  change (with_rec (walk self) (e :: es))
    with ((e, walk self e) :: with_rec (walk self) es).
  cbn [walk_loop]. rewrite Hd.
  destruct (depth_exceeded self (depth + 1)).
  - specialize (IH depth (incr_dirs st)).
    destruct (walk_loop self depth _ (incr_dirs st)) as [more st3]. exact IH.
  - specialize (He (depth + 1) (incr_dirs st)).
    destruct (walk self e (depth + 1) (incr_dirs st)) as [n st2].
    specialize (IH depth st2).
    destruct (walk_loop self depth _ st2) as [more st3].
    cbn [snd] in *. rewrite IH, He. reflexivity.
Qed.

Lemma walk_dirs_only (self : Generator) (e : Path) :
  dirs_only (config self) = true ->
  forall depth st, total_files (snd (walk self e depth st)) = total_files st.
Proof.
  intros Hdo.
  induction e as [m r s | m s x | m s l IH] using Path_ind_nested;
    intros depth st; rewrite walk_eq; cbn [iterdir snd]; try reflexivity.
  assert (H : Forall (fun e => is_dir e = true /\
                        forall depth st,
                          total_files (snd (walk self e depth st)) = total_files st)
                (list_entries self (fun e => e) l)).
  { apply List.Forall_forall. intros e He.
    apply list_entries_In in He as [Hin Hk]. split.
    - unfold keep_entry in Hk. rewrite Hdo in Hk.
      apply andb_true_iff in Hk as [_ Hk]. exact Hk.
    - rewrite List.Forall_forall in IH. apply IH, Hin. }
  pose proof (walk_loop_dirs_only self _ H depth st) as Hw.
  destruct (walk_loop self depth _ st) as [ch st']. exact Hw.
Qed.

(** With [dirs_only] no generator counts a file, and the JSON tree has
    no object of type ["file"]. *)
Theorem dirs_only_counts_no_file
        (self : Generator) (directory : Path) (prefix : string) (depth : Z)
        (st : TreeStats) :
  dirs_only (config self) = true ->
  total_files (snd (generate_tree_text self directory prefix depth st))
    = total_files st /\
  total_files (snd (generate_tree_markdown self directory depth st))
    = total_files st /\
  total_files (snd (generate_tree_json self directory depth st))
    = total_files st /\
  count_objects (has_type "file")
    (fst (generate_tree_json self directory depth st)) = 0%nat.
Proof.
  intros Hdo.
  assert (Hj : total_files (snd (generate_tree_json self directory depth st))
               = total_files st).
  { destruct (depth_exceeded self depth) eqn:Hx.
    - rewrite generate_tree_json_eq, Hx. reflexivity.
    - rewrite (json_is_walk self directory depth st Hx).
      apply walk_dirs_only, Hdo. }
  destruct (stats_agree self directory prefix depth st) as [Ht Hm].
  rewrite Ht, Hm. repeat split; try exact Hj.
  destruct (generate_tree_json_counted self directory depth st) as (_ & Hf & _).
  lia.
Qed.

Lemma dirs_only_counts_no_file_witness :
  count_objects (has_type "file")
    (fst (generate_tree_json
            (Generator_init (mkConfig None false true false false ∅) JSON)
            Sample.with_locked 0 TreeStats_new)) = 0%nat.
Proof.
  apply (dirs_only_counts_no_file
           (Generator_init (mkConfig None false true false false ∅) JSON)
           Sample.with_locked "" 0 TreeStats_new).
  reflexivity.
Defined.

(** ** One line for every counted entry *)

Lemma text_loop_lines (self : Generator) (es : list Path) :
  Forall (fun e => forall prefix depth st,
            let r := generate_tree_text self e prefix depth st in
            (List.length (fst r) + total_dirs st + total_files st
             = total_dirs (snd r) + total_files (snd r))%nat /\
            Forall (fun line => PyStr.startswith line prefix = true) (fst r)) es ->
  forall prefix depth st,
    let r := text_loop self prefix depth
               (with_rec (generate_tree_text self) es) st in
    (List.length (fst r) + total_dirs st + total_files st
     = total_dirs (snd r) + total_files (snd r))%nat /\
    Forall (fun line => PyStr.startswith line prefix = true) (fst r).
Proof.
  induction 1 as [|e es He Hes IH]; intros prefix depth st.
  - split; [reflexivity | constructor].
  - change (with_rec (generate_tree_text self) (e :: es))
      with ((e, generate_tree_text self e)
              :: with_rec (generate_tree_text self) es).
    cbn [text_loop].
    set (is_last := match with_rec (generate_tree_text self) es with
                    | [] => true | _ => false end).
    destruct (is_dir e).
    + set (prefix' := prefix +:+ (if is_last then SPACE else PIPE_SPACE)).
      destruct (He prefix' (depth + 1) (incr_dirs st)) as [Hn Hp].
      destruct (generate_tree_text self e prefix' (depth + 1) (incr_dirs st))
        as [sub st2].
      destruct (IH prefix depth st2) as [Hn' Hp'].
      destruct (text_loop self prefix depth _ st2) as [more st3].
      cbn [fst snd incr_dirs total_dirs total_files] in *. split.
      * cbn [List.length]. rewrite List.length_app. lia.
      * constructor; [apply startswith_app|].
        apply Forall_app. split; [|exact Hp'].
        eapply List.Forall_impl; [|exact Hp].
        intros line Hl. apply startswith_iff in Hl as [t ->].
        unfold prefix'. rewrite string_app_assoc. apply startswith_app.
    + destruct (IH prefix depth (incr_files st)) as [Hn' Hp'].
      destruct (text_loop self prefix depth _ (incr_files st)) as [more st3].
      cbn [fst snd incr_files total_dirs total_files app] in *. split.
      * cbn [List.length]. lia.
      * constructor; [apply startswith_app | exact Hp'].
Qed.

Lemma text_lines_counted_from
      (self : Generator) (directory : Path) (prefix : string) (depth : Z)
      (st : TreeStats) :
  let r := generate_tree_text self directory prefix depth st in
  (List.length (fst r) + total_dirs st + total_files st
   = total_dirs (snd r) + total_files (snd r))%nat /\
  Forall (fun line => PyStr.startswith line prefix = true) (fst r).
Proof.
  revert prefix depth st.
  induction directory as [m r s | m s x | m s l IH] using Path_ind_nested;
    intros prefix depth st; rewrite generate_tree_text_eq;
    (destruct (depth_exceeded self depth); [split; [reflexivity | constructor]|]);
    cbn [iterdir]; try (split; [reflexivity | constructor]).
  apply (text_loop_lines self _ (list_entries_Forall self _ _ IH)).
Qed.

(** The text generator returns one line for every entry it counts, and
    every line begins with the prefix the call was given, so the lines
    below a directory are indented under it. *)
Theorem text_lines_are_the_counted_entries
        (self : Generator) (directory : Path) (prefix : string) (depth : Z)
        (st : TreeStats) :
  let r := generate_tree_text self directory prefix depth st in
  (List.length (fst r) + total_dirs st + total_files st
   = total_dirs (snd r) + total_files (snd r))%nat /\
  Forall (fun line => PyStr.startswith line prefix = true) (fst r).
Proof. apply text_lines_counted_from. Qed.

Lemma markdown_loop_lines (self : Generator) (es : list Path) :
  Forall (fun e => forall depth st,
            let r := generate_tree_markdown self e depth st in
            (List.length (fst r) + total_dirs st + total_files st
             = total_dirs (snd r) + total_files (snd r))%nat) es ->
  forall depth st,
    let r := markdown_loop self depth
               (with_rec (generate_tree_markdown self) es) st in
    (List.length (fst r) + total_dirs st + total_files st
     = total_dirs (snd r) + total_files (snd r))%nat.
Proof.
  induction 1 as [|e es He Hes IH]; intros depth st; [reflexivity|].
  change (with_rec (generate_tree_markdown self) (e :: es))
    with ((e, generate_tree_markdown self e)
            :: with_rec (generate_tree_markdown self) es).
  cbn [markdown_loop].
  destruct (is_dir e).
  - specialize (He (depth + 1) (incr_dirs st)).
    destruct (generate_tree_markdown self e (depth + 1) (incr_dirs st))
      as [sub st2].
    specialize (IH depth st2).
    destruct (markdown_loop self depth _ st2) as [more st3].
    cbn [fst snd incr_dirs total_dirs total_files] in *.
    cbn [app List.length]. rewrite List.length_app. lia.
  - specialize (IH depth (incr_files st)).
    destruct (markdown_loop self depth _ (incr_files st)) as [more st3].
    cbn [fst snd incr_files total_dirs total_files app List.length] in *. lia.
Qed.

(** The Markdown generator, too, returns one line for every entry it
    counts; with the text generator it therefore returns as many lines. *)
Theorem markdown_lines_are_the_counted_entries
        (self : Generator) (directory : Path) (prefix : string) (depth : Z)
        (st : TreeStats) :
  let r := generate_tree_markdown self directory depth st in
  (List.length (fst r) + total_dirs st + total_files st
   = total_dirs (snd r) + total_files (snd r))%nat /\
  List.length (fst r)
  = List.length (fst (generate_tree_text self directory prefix depth st)).
Proof.
  assert (H : forall d depth st,
             let r := generate_tree_markdown self d depth st in
             (List.length (fst r) + total_dirs st + total_files st
              = total_dirs (snd r) + total_files (snd r))%nat).
  { intros d. induction d as [m r s | m s x | m s l IH] using Path_ind_nested;
      intros k st0; rewrite generate_tree_markdown_eq;
      (destruct (depth_exceeded self k); [reflexivity|]);
      cbn [iterdir]; try reflexivity.
    apply (markdown_loop_lines self _ (list_entries_Forall self _ _ IH)). }
  intros r. split; [apply H|].
  pose proof (H directory depth st) as Hm.
  destruct (text_lines_counted_from self directory prefix depth st)
    as [Ht _].
  destruct (stats_agree self directory prefix depth st) as [E1 E2].
  fold r in Hm. unfold r in *. rewrite E1 in Ht. rewrite E2 in Hm. lia.
Qed.

(** ** The shape of the JSON tree *)

Lemma json_loop_children (self : Generator) (Q : Z -> JValue -> Prop)
      (es : list Path) :
  Forall (fun e => forall depth st,
            Q depth (fst (generate_tree_json self e depth st))) es ->
  forall depth st,
    Forall (fun c => Q (depth + 1) c \/
                     exists entry, is_dir entry = false /\ c = file_info self entry)
      (fst (json_loop self depth (with_rec (generate_tree_json self) es) st)).
Proof.
  induction 1 as [|e es He Hes IH]; intros depth st; [constructor|].
  change (with_rec (generate_tree_json self) (e :: es))
    with ((e, generate_tree_json self e)
            :: with_rec (generate_tree_json self) es).
  cbn [json_loop].
  destruct (is_dir e) eqn:Hd.
  - specialize (He (depth + 1) (incr_dirs st)).
    destruct (generate_tree_json self e (depth + 1) (incr_dirs st)) as [c st2].
    specialize (IH depth st2).
    destruct (json_loop self depth _ st2) as [more st3].
    constructor; [left; exact He | exact IH].
  - specialize (IH depth (incr_files st)).
    destruct (json_loop self depth _ (incr_files st)) as [more st3].
    constructor; [right; exists e; auto | exact IH].
Qed.

(** Induction over what the JSON generator can return. *)
Lemma json_output_ind (self : Generator) (Q : Z -> JValue -> Prop) :
  (forall depth, depth_exceeded self depth = true -> Q depth (JDict [])) ->
  (forall depth d e, depth_exceeded self depth = false ->
                     Q depth (error_tree d e)) ->
  (forall depth d children,
      depth_exceeded self depth = false ->
      Forall (fun c => Q (depth + 1) c \/
                       exists entry, is_dir entry = false /\ c = file_info self entry)
             children ->
      Q depth (JDict (tree_dict d children))) ->
  forall e depth st, Q depth (fst (generate_tree_json self e depth st)).
Proof.
  intros Hcut Herr Hdir e.
  induction e as [m r s | m s x | m s l IH] using Path_ind_nested;
    intros depth st; rewrite generate_tree_json_eq;
    (destruct (depth_exceeded self depth) eqn:Hx; [apply Hcut, Hx|]);
    cbn [iterdir fst].
  - apply Herr, Hx.
  - apply Herr, Hx.
  - pose proof (json_loop_children self Q _ (list_entries_Forall self _ _ IH)
                  depth st) as Hch.
    destruct (json_loop self depth _ st) as [children st']. cbn [fst] in *.
    apply Hdir; assumption.
Qed.

Lemma file_info_shape (self : Generator) (e : Path) :
  exists items, file_info self e = JDict items /\
                json_objects (JDict items) = [items] /\
                json_height (JDict items) = 1%nat /\
                json_object_shape self items.
Proof.
  unfold file_info, json_object_shape.
  destruct (show_size (config self)) eqn:Hs; [destruct (stat e) as [s|]|];
    eexists; (split; [reflexivity|]); (split; [reflexivity|]);
    (split; [reflexivity|]).
  - right; right; right; right. exists (name e), (Z.of_N (st_size s)).
    split; [reflexivity|]. split; [lia | reflexivity].
  - right; right; right; left. eauto.
  - right; right; right; left. eauto.
Qed.

Lemma json_tree_shape
      (self : Generator) (directory : Path) (depth : Z) (st : TreeStats) :
  (exists items, fst (generate_tree_json self directory depth st) = JDict items) /\
  Forall (json_object_shape self)
    (json_objects (fst (generate_tree_json self directory depth st))).
Proof.
  apply (json_output_ind self
           (fun _ j => (exists items, j = JDict items) /\
                       Forall (json_object_shape self) (json_objects j))).
  - intros k _. split; [eauto|]. repeat constructor.
  - intros k d e _. split; [unfold error_tree; eauto|].
    unfold error_tree. rewrite json_objects_tree_dict
      by (intros kv [<- | []]; reflexivity).
    constructor; [|constructor]. right; right; left.
    exists (name d), (exc_str e). reflexivity.
  - intros k d children _ Hch. split; [eauto|].
    rewrite <- (app_nil_r (tree_dict d children)).
    rewrite json_objects_tree_dict by (intros kv []).
    rewrite app_nil_r. constructor.
    + right; left. exists (name d), children. reflexivity.
    + apply List.Forall_forall. intros items Hin.
      apply in_flat_map in Hin as (c & Hc & Hin).
      rewrite List.Forall_forall in Hch.
      destruct (Hch c Hc) as [[_ Hq] | [entry [_ ->]]].
      * rewrite List.Forall_forall in Hq. apply Hq, Hin.
      * destruct (file_info_shape self entry) as (it & E & Ho & _ & Hs).
        rewrite E, Ho in Hin. destruct Hin as [<- | []]. exact Hs.
Qed.

(** Whatever the directory and the configuration, the JSON generator
    returns an object, and every object of the tree has one of five
    shapes: empty; a directory with its name, type and children; a
    directory that could not be listed, with no children and the message
    under ["error"]; a file with name and type; or, only when sizes are
    shown, a file with name, type and a non-negative size. *)
Theorem json_tree_has_the_documented_shape
        (self : Generator) (directory : Path) (depth : Z) (st : TreeStats) :
  (exists items, fst (generate_tree_json self directory depth st) = JDict items) /\
  Forall (json_object_shape self)
    (json_objects (fst (generate_tree_json self directory depth st))).
Proof. apply json_tree_shape. Qed.

Lemma json_height_children (B : nat) (children : list JValue) :
  Forall (fun c => (json_height c <= B)%nat) children ->
  (List.fold_right (fun x acc => Nat.max (json_height x) acc) O children <= B)%nat.
Proof.
  induction 1 as [|c children Hc _ IH]; cbn [List.fold_right]; lia.
Qed.

(** With [max_depth = N] the JSON generator called at depth [d] returns
    a tree of at most [N + 1 - d] object levels below its top object:
    from the root, no object lies more than [N + 1] levels down. *)
Theorem json_tree_is_cut_at_the_depth_limit
        (self : Generator) (limit : Z) (directory : Path) (depth : Z)
        (st : TreeStats) :
  max_depth (config self) = Some limit ->
  (json_height (fst (generate_tree_json self directory depth st))
   <= Z.to_nat (limit + 1 - depth) + 1)%nat.
Proof.
  intros Hm.
  apply (json_output_ind self
           (fun k j => (json_height j <= Z.to_nat (limit + 1 - k) + 1)%nat)).
  - intros k _. cbn [json_height List.fold_right]. lia.
  - intros k d e _. unfold error_tree, tree_dict.
    cbn [app json_height List.fold_right snd Nat.max]. lia.
  - intros k d children Hx Hch.
    unfold depth_exceeded in Hx. rewrite Hm in Hx.
    assert (k <= limit) as Hk by lia.
    unfold tree_dict. cbn [json_height List.fold_right snd Nat.max].
    rewrite Nat.max_0_r.
    assert (List.fold_right (fun x acc => Nat.max (json_height x) acc) O children
            <= Z.to_nat (limit - k) + 1)%nat as Hb.
    { apply json_height_children.
      eapply List.Forall_impl; [|exact Hch].
      intros c [Hq | [entry [_ ->]]].
      - replace (limit - k) with (limit + 1 - (k + 1)) by lia. exact Hq.
      - destruct (file_info_shape self entry) as (it & -> & _ & -> & _). lia. }
    lia.
Qed.

Lemma json_tree_is_cut_at_the_depth_limit_witness :
  (json_height (fst (generate_tree_json (Sample.depth_one JSON) Sample.nested 0%Z
                                        TreeStats_new))
   <= Z.to_nat (1 + 1 - 0) + 1)%nat.
Proof.
  apply (json_tree_is_cut_at_the_depth_limit (Sample.depth_one JSON) 1
           Sample.nested 0 TreeStats_new).
  reflexivity.
Defined.

(** ** Writing the tree to a file *)

Lemma append_empty_r (s : string) : s +:+ "" = s.
Proof. induction s as [|a s IH]; [reflexivity|]. rewrite append_cons, IH. reflexivity. Qed.




(** The empty directory of the case above: the file has a newline that
    the string has not. *)
Example empty_directory_file_and_string :
  generate_to_file (Sample.defaults TEXT) Sample.no_dumps [] [] [] []
    (Sample.only (Sample.empty_dir "tmp")) Disk.no_suffix Disk.add_suffix
    Disk.writable Disk.elsewhere Disk.accepts "tmp" "tree" TreeStats_new
  = (inr (mkWritten "tree.txt" ("tmp" +:+ newline)), TreeStats_new) /\
  generate_to_string (Sample.defaults TEXT) Sample.no_dumps [] [] [] []
    (Sample.only (Sample.empty_dir "tmp")) "tmp" TreeStats_new
  = (inr "tmp", TreeStats_new).
Proof. split; reflexivity. Qed.

(** The case of the test suite, [test_generate_to_file_text]: the output
    file is created inside the directory it describes, before the
    directory is listed, and so it is an entry of its own tree, which the
    string of [generate_to_string] for the directory as it was does not
    have. *)
Example test_generate_to_file_text :
  let tmpdir := Dir "tmp" None (inr [Sample.plain_file "test.txt"]) in
  generate_to_file (Sample.defaults TEXT) Sample.no_dumps [] [] [] []
    (Sample.only tmpdir) Disk.suffix_txt Disk.add_suffix
    Disk.writable Disk.created_in Disk.accepts "tmp" "tree.txt" TreeStats_new
  = (inr (mkWritten "tree.txt"
            (PyStr.join newline
               ["tmp"; TEE +:+ " test.txt"; ELBOW +:+ " tree.txt"])),
     mkStats 0 2 0 0) /\
  generate_to_string (Sample.defaults TEXT) Sample.no_dumps [] [] [] []
    (Sample.only tmpdir) "tmp" TreeStats_new
  = (inr (PyStr.join newline ["tmp"; ELBOW +:+ " test.txt"]), mkStats 0 1 0 0).
Proof. split; vm_compute; reflexivity. Qed.


Lemma root_items_shape (self : Generator) (d : Path) (depth : Z) (st : TreeStats) :
  exists items,
    fst (generate_tree_json self d depth st) = JDict items /\
    json_object_shape self items.
Proof.
  destruct (json_tree_shape self d depth st) as [[items E] Hall].
  exists items. split; [exact E|].
  rewrite E in Hall. cbn [json_objects] in Hall.
  inversion Hall; assumption.
Qed.



(** When the output file cannot be opened the exception goes to the
    caller and nothing is written.  For text, Markdown and JSON the
    directory has not been read by then and the statistics are untouched;
    for HTML the traversal has already run and its counts stay in the
    generator. *)
Theorem unopenable_output_file
        (self : Generator) (json_dumps : JValue -> string)
        (html_head html_body html_tree html_tail : list string)
        (lookup : string -> option Path)
        (path_suffix : string -> string)
        (path_with_suffix : string -> string -> PyExc + string)
        (open_for_writing : string -> option PyExc)
        (after_open : string -> Path -> Path)
        (file_write : string -> option PyExc)
        (directory output_path written_to : string) (dir_path : Path)
        (e : PyExc) (st : TreeStats) :
  lookup directory = Some dir_path ->
  is_dir dir_path = true ->
  adjusted_output_path self path_suffix path_with_suffix output_path
    = inr written_to ->
  open_for_writing written_to = Some e ->
  generate_to_file self json_dumps html_head html_body html_tree html_tail
                   lookup path_suffix path_with_suffix open_for_writing
                   after_open file_write directory output_path st
  = (inl e,
     match output_format self with
     | HTML => snd (generate_tree_json self dir_path 0 st)
     | _ => st
     end).
Proof.
  intros Hl Hd Ha Ho.
  unfold generate_to_file, write_tree. rewrite Hl, Hd, Ha, Ho. cbn [negb].
  destruct (output_format self); try reflexivity.
  destruct (root_items_shape self dir_path 0 st) as (items & E & _).
  destruct (generate_tree_json self dir_path 0 st) as [tree st1].
  cbn [fst snd] in *. subst tree. reflexivity.
Qed.

Lemma unopenable_output_file_witness :
  generate_to_file (Sample.defaults HTML) Sample.no_dumps [] [] [] []
    (Sample.only Sample.with_locked) Disk.no_suffix Disk.add_suffix
    Disk.read_only Disk.elsewhere Disk.accepts "r" "tree" TreeStats_new
  = (inl (PermissionError "[Errno 13] Permission denied: 'tree.html'"),
     mkStats 2 1 0 1).
Proof.
  rewrite (unopenable_output_file
             (Sample.defaults HTML) Sample.no_dumps [] [] [] []
             (Sample.only Sample.with_locked) Disk.no_suffix Disk.add_suffix
             Disk.read_only Disk.elsewhere Disk.accepts
             "r" "tree" "tree.html" Sample.with_locked
             (PermissionError "[Errno 13] Permission denied: 'tree.html'")
             TreeStats_new eq_refl eq_refl eq_refl eq_refl).
  reflexivity.
Defined.

(** ** The exit status of [main] *)





(** The run of the witness: a directory that cannot be listed makes the
    status 1 although the tree is written. *)
Example main_reports_unreadable_directory :
  main Sample.no_dumps [] [] [] [] (Sample.only Sample.with_locked)
       Disk.no_suffix Disk.add_suffix Disk.writable Disk.elsewhere
       Disk.accepts Disk.accepts None (Disk.plain_args "r" "tree" "text")
  = (1, Some (mkWritten "tree.txt"
                (PyStr.join newline
                   ["r"; TEE +:+ " locked"; TEE +:+ " open"; ELBOW +:+ " z.txt"]))).
Proof. vm_compute. reflexivity. Qed.

(** With every directory listed the same run ends with status 0. *)
Example main_reports_success :
  main Sample.no_dumps [] [] [] [] (Sample.only Sample.with_unlocked)
       Disk.no_suffix Disk.add_suffix Disk.writable Disk.elsewhere
       Disk.accepts Disk.accepts None (Disk.plain_args "r" "tree" "text")
  = (0, Some (mkWritten "tree.txt"
                (PyStr.join newline
                   ["r"; TEE +:+ " locked"; TEE +:+ " open"; ELBOW +:+ " z.txt"]))).
Proof. vm_compute. reflexivity. Qed.

(** A file whose name the encoder of the output file refuses: every
    directory is listed, the file is opened, and the status is 1, the
    [write] having raised.  A format that is not among the choices of the
    command line ends the run with status 2 before anything is read. *)
Example main_reports_a_refused_write :
  let odd := String (ascii_of_nat 255) "" in
  main Sample.no_dumps [] [] [] []
       (Sample.only (Dir "r" None (inr [Sample.plain_file odd])))
       Disk.no_suffix Disk.add_suffix Disk.writable Disk.elsewhere
       (Disk.refuses (ascii_of_nat 255)) Disk.accepts None
       (Disk.plain_args "r" "tree" "text")
  = (1, None) /\
  main Sample.no_dumps [] [] [] [] (Sample.only Sample.with_locked)
       Disk.no_suffix Disk.add_suffix Disk.writable Disk.elsewhere
       Disk.accepts Disk.accepts None (Disk.plain_args "r" "tree" "yaml")
  = (2, None).
Proof. split; vm_compute; reflexivity. Qed.

(** ** A pattern that hides everything *)

Lemma filter_none {A : Type} (p : A -> bool) (l : list A) :
  (forall x, p x = false) -> List.filter p l = [].
Proof.
  intros H. induction l as [|x l IH]; [reflexivity|].
  cbn [List.filter]. rewrite H. exact IH.
Qed.

(** The pattern [*] alone matches every name: with it in the ignore set
    every entry is ignored, and a directory that can be listed is
    rendered as if it were empty, nothing being counted. *)
Theorem lone_star_hides_every_entry
        (self : Generator) (m : string) (s : option StatResult) (l : list Path)
        (prefix : string) (depth : Z) (st : TreeStats) :
  "*" ∈ ignore_patterns self ->
  depth_exceeded self depth = false ->
  (forall entry, should_ignore self entry = true) /\
  generate_tree_text self (Dir m s (inr l)) prefix depth st = ([], st) /\
  generate_tree_markdown self (Dir m s (inr l)) depth st = ([], st) /\
  generate_tree_json self (Dir m s (inr l)) depth st
  = (JDict [("name", JStr m); ("type", JStr "directory"); ("children", JList [])],
     st).
Proof.
  intros Hstar Hx.
  assert (Hall : forall entry, should_ignore self entry = true).
  { intros entry. apply should_ignore_iff. right; right.
    exists "*". split; [exact Hstar|].
    apply wildcard_hit_iff. left. exists "". split; [reflexivity|].
    exists entry. symmetry. apply append_empty_r. }
  assert (Hnone : list_entries self (fun e => e) l = []).
  { unfold list_entries. apply filter_none. intros e.
    unfold keep_entry. rewrite Hall. reflexivity. }
  split; [exact Hall|].
  rewrite generate_tree_text_eq, generate_tree_markdown_eq,
    generate_tree_json_eq, Hx.
  cbn [iterdir]. rewrite Hnone. auto.
Qed.

Lemma lone_star_hides_every_entry_witness :
  generate_tree_text (Generator_init (Sample.config_with None {[ "*" ]}) TEXT)
    (Dir "r" None (inr [Sample.plain_file "a"; Sample.empty_dir "b"])) "" 0
    TreeStats_new
  = ([], TreeStats_new).
Proof.
  apply (lone_star_hides_every_entry
           (Generator_init (Sample.config_with None {[ "*" ]}) TEXT)
           "r" None [Sample.plain_file "a"; Sample.empty_dir "b"] "" 0
           TreeStats_new).
  - apply (bool_decide_unpack _). vm_compute. exact I.
  - reflexivity.
Defined.
